(** * Job lifecycle of the website scanner

    A shallow embedding of the job bookkeeping of the scanner:
    the [CrawlJob] state machine driven by the jobs API
    ([app/api/v1/jobs.py]) and by the two Celery executors
    ([app/services/tasks/crawl_tasks.py] and
    [app/services/tasks/website_check_tasks.py]), together with the
    [Business] and [WebsiteCheck] rows the executors write.

    Conventions of the embedding.
    - Python integers are [Z]; [len] is [Z.of_nat (length _)].
    - The confidence constants 0.9, 0.8, 0.7 and 0.0 are rationals; the code
      never computes with them.
    - [time.time()] readings are abstract clock values supplied by the
      environment; they are floats, which the [DateTime] columns
      [started_at], [completed_at] and [last_checked] do not take: a commit
      that has to write one fails (see [commit]).
    - A table is the list of its rows in storage order; a query walks that
      list.
    - [str.lower] is modelled on ASCII letters. *)

From Stdlib Require Import ZArith QArith List String Ascii Bool Lia.
From Stdlib Require Import DecimalString.
Import ListNotations.

Local Open Scope string_scope.
Local Open Scope Z_scope.

(** ** The Python string and truthiness primitives the code relies on *)

Module Py.

(** [c.lower()] for one ASCII character. *)
Definition lower_ascii (c : ascii) : ascii :=
  let n := nat_of_ascii c in
  if (Nat.leb 65 n && Nat.leb n 90)%bool then ascii_of_nat (n + 32) else c.

(** [s.lower()]. *)
Fixpoint lower (s : string) : string :=
  match s with
  | EmptyString => EmptyString
  | String c r => String (lower_ascii c) (lower r)
  end.

(** [s.replace(c, '')] for a one-character [c]. *)
Fixpoint remove (c : ascii) (s : string) : string :=
  match s with
  | EmptyString => EmptyString
  | String d r => if Ascii.eqb c d then remove c r else String d (remove c r)
  end.

(** [str(n)] for an integer. *)
Definition str_int (n : Z) : string := NilZero.string_of_int (Z.to_int n).

(** [f"{x}"] for an optional string: [None] is rendered as its name. *)
Definition fmt_opt (x : option string) : string :=
  match x with Some s => s | None => "None" end.

Fixpoint join (sep : string) (l : list string) : string :=
  match l with
  | [] => EmptyString
  | [x] => x
  | x :: r => x ++ sep ++ join sep r
  end.

(** [str(l)] for a list of integers. *)
Definition str_int_list (l : list Z) : string :=
  "[" ++ join ", " (map str_int l) ++ "]".

(** [x or d] for an optional string: [None] and the empty string are
    falsy. *)
Definition or_else (x : option string) (d : string) : string :=
  match x with
  | Some (String c r) => String c r
  | _ => d
  end.

(** [bool(l)] for an optional list: [None] and [[]] are falsy. *)
Definition truthy {A} (l : option (list A)) : bool :=
  match l with
  | Some (_ :: _) => true
  | _ => false
  end.

(** [c in s]. *)
Fixpoint contains (c : ascii) (s : string) : bool :=
  match s with
  | EmptyString => false
  | String d r => Ascii.eqb c d || contains c r
  end.

(** [s.split(c)[0]]: the text before the first [c]. *)
Fixpoint split_first (c : ascii) (s : string) : string :=
  match s with
  | EmptyString => EmptyString
  | String d r => if Ascii.eqb c d then EmptyString else String d (split_first c r)
  end.

(** [s.split(c)[-1]]: the text after the last [c]. *)
Fixpoint split_last (c : ascii) (s : string) : string :=
  match s with
  | EmptyString => EmptyString
  | String d r =>
      if contains c r then split_last c r
      else if Ascii.eqb c d then r else String d r
  end.

Definition is_space (c : ascii) : bool :=
  let n := nat_of_ascii c in
  (Nat.leb 9 n && Nat.leb n 13 || Nat.leb 28 n && Nat.leb n 32)%bool.

Fixpoint lstrip (s : string) : string :=
  match s with
  | String c r => if is_space c then lstrip r else s
  | EmptyString => EmptyString
  end.

Fixpoint rstrip (s : string) : string :=
  match s with
  | EmptyString => EmptyString
  | String c r =>
      match rstrip r with
      | EmptyString => if is_space c then EmptyString else String c EmptyString
      | r' => String c r'
      end
  end.

(** [s.strip()]. *)
Definition strip (s : string) : string := rstrip (lstrip s).

(** The double-quote character of the JSON text built with f-strings. *)
Definition dquote : string := String (ascii_of_nat 34) EmptyString.

End Py.

(** ** Data model ([app/models]) *)

(** A reading of [time.time()]. *)
Definition Time := Z.

(** The handle Celery returns for a dispatched task ([task.id]). *)
Definition TaskId := nat.

Inductive JobStatus : Set :=
  PENDING | RUNNING | COMPLETED | FAILED | CANCELLED.

Inductive JobType : Set :=
  | GOOGLE_MAPS
  | LINKEDIN
  | FACEBOOK
  | CHAMBER_OF_COMMERCE
  | WEBSITE_CHECK
  | DATA_ENRICHMENT.

Definition JobStatus_eqb (a b : JobStatus) : bool :=
  match a, b with
  | PENDING, PENDING | RUNNING, RUNNING | COMPLETED, COMPLETED
  | FAILED, FAILED | CANCELLED, CANCELLED => true
  | _, _ => false
  end.

(** [models/crawl_job.py].  The columns the server fills on its own
    ([uuid], [created_at], [updated_at]) are left out. *)
Module CrawlJob.

Record t : Type := mk {
  id : Z;
  name : string;
  job_type : JobType;
  status : JobStatus;
  parameters : option string;
  target_location : option string;
  target_industry : option string;
  total_items : Z;
  processed_items : Z;
  successful_items : Z;
  failed_items : Z;
  error_message : option string;
  retry_count : Z;
  max_retries : Z;
  celery_task_id : option TaskId;
  started_at : option Time;
  completed_at : option Time
}.

(** Attribute assignments [job.x = v]. *)
Definition set_status v j :=
  mk (id j) (name j) (job_type j) v (parameters j) (target_location j)
     (target_industry j) (total_items j) (processed_items j)
     (successful_items j) (failed_items j) (error_message j)
     (retry_count j) (max_retries j) (celery_task_id j) (started_at j)
     (completed_at j).
Definition set_total_items v j :=
  mk (id j) (name j) (job_type j) (status j) (parameters j)
     (target_location j) (target_industry j) v (processed_items j)
     (successful_items j) (failed_items j) (error_message j)
     (retry_count j) (max_retries j) (celery_task_id j) (started_at j)
     (completed_at j).
Definition set_processed_items v j :=
  mk (id j) (name j) (job_type j) (status j) (parameters j)
     (target_location j) (target_industry j) (total_items j) v
     (successful_items j) (failed_items j) (error_message j)
     (retry_count j) (max_retries j) (celery_task_id j) (started_at j)
     (completed_at j).
Definition set_successful_items v j :=
  mk (id j) (name j) (job_type j) (status j) (parameters j)
     (target_location j) (target_industry j) (total_items j)
     (processed_items j) v (failed_items j) (error_message j)
     (retry_count j) (max_retries j) (celery_task_id j) (started_at j)
     (completed_at j).
Definition set_failed_items v j :=
  mk (id j) (name j) (job_type j) (status j) (parameters j)
     (target_location j) (target_industry j) (total_items j)
     (processed_items j) (successful_items j) v (error_message j)
     (retry_count j) (max_retries j) (celery_task_id j) (started_at j)
     (completed_at j).
Definition set_error_message v j :=
  mk (id j) (name j) (job_type j) (status j) (parameters j)
     (target_location j) (target_industry j) (total_items j)
     (processed_items j) (successful_items j) (failed_items j) v
     (retry_count j) (max_retries j) (celery_task_id j) (started_at j)
     (completed_at j).
Definition set_retry_count v j :=
  mk (id j) (name j) (job_type j) (status j) (parameters j)
     (target_location j) (target_industry j) (total_items j)
     (processed_items j) (successful_items j) (failed_items j)
     (error_message j) v (max_retries j) (celery_task_id j) (started_at j)
     (completed_at j).
Definition set_celery_task_id v j :=
  mk (id j) (name j) (job_type j) (status j) (parameters j)
     (target_location j) (target_industry j) (total_items j)
     (processed_items j) (successful_items j) (failed_items j)
     (error_message j) (retry_count j) (max_retries j) v (started_at j)
     (completed_at j).
Definition set_started_at v j :=
  mk (id j) (name j) (job_type j) (status j) (parameters j)
     (target_location j) (target_industry j) (total_items j)
     (processed_items j) (successful_items j) (failed_items j)
     (error_message j) (retry_count j) (max_retries j) (celery_task_id j) v
     (completed_at j).
Definition set_completed_at v j :=
  mk (id j) (name j) (job_type j) (status j) (parameters j)
     (target_location j) (target_industry j) (total_items j)
     (processed_items j) (successful_items j) (failed_items j)
     (error_message j) (retry_count j) (max_retries j) (celery_task_id j)
     (started_at j) v.

(** The [is_completed] property. *)
Definition is_completed (j : t) : bool :=
  match status j with
  | COMPLETED | FAILED | CANCELLED => true
  | PENDING | RUNNING => false
  end.

(** The [can_retry] property. *)
Definition can_retry (j : t) : bool :=
  JobStatus_eqb (status j) FAILED && (retry_count j <? max_retries j).

End CrawlJob.

(** [models/business.py], without [uuid], [postal_code], [employee_count],
    [raw_data], [is_processed], [is_verified], [created_at] and
    [updated_at], which the executors neither read nor write. *)
Module Business.

Record t : Type := mk {
  id : Z;
  name : string;
  address : option string;
  city : option string;
  country : option string;
  phone : option string;
  email : option string;
  business_type : option string;
  industry : option string;
  is_zzp : bool;
  website_exists : option bool;
  website_url : option string;
  website_confidence_score : option Q;
  source : option string;
  source_id : option string;
  confidence_score : option Q;
  last_checked : option Time
}.

Definition set_id v b :=
  mk v (name b) (address b) (city b) (country b) (phone b) (email b)
     (business_type b) (industry b) (is_zzp b) (website_exists b)
     (website_url b) (website_confidence_score b) (source b) (source_id b)
     (confidence_score b) (last_checked b).
Definition set_website_exists v b :=
  mk (id b) (name b) (address b) (city b) (country b) (phone b) (email b)
     (business_type b) (industry b) (is_zzp b) v
     (website_url b) (website_confidence_score b) (source b) (source_id b)
     (confidence_score b) (last_checked b).
Definition set_website_url v b :=
  mk (id b) (name b) (address b) (city b) (country b) (phone b) (email b)
     (business_type b) (industry b) (is_zzp b) (website_exists b)
     v (website_confidence_score b) (source b) (source_id b)
     (confidence_score b) (last_checked b).
Definition set_website_confidence_score v b :=
  mk (id b) (name b) (address b) (city b) (country b) (phone b) (email b)
     (business_type b) (industry b) (is_zzp b) (website_exists b)
     (website_url b) v (source b) (source_id b)
     (confidence_score b) (last_checked b).
Definition set_last_checked v b :=
  mk (id b) (name b) (address b) (city b) (country b) (phone b) (email b)
     (business_type b) (industry b) (is_zzp b) (website_exists b)
     (website_url b) (website_confidence_score b) (source b) (source_id b)
     (confidence_score b) v.

End Business.

(** [models/website_check.py].  [dns_records] and [headers] hold the value
    whose [str] rendering the column stores; [whois_data] and [ssl_info]
    are never written and are left out, as are the server-side columns. *)
Module WebsiteCheck.

Record t : Type := mk {
  business_id : Z;
  check_type : string;
  url_checked : string;
  website_exists : bool;
  confidence_score : Q;
  status_code : option Z;
  response_time : option Q;
  dns_records : option (list string);
  headers : option (list (string * string));
  error_message : option string;
  is_error : bool
}.

End WebsiteCheck.

(** ** The world: the three tables and the Celery broker *)

(** A task handed to [celery_app.send_task], with its [args]. *)
Inductive TaskCall : Type :=
  | CrawlGoogleMaps (job_id : Z) (location industry : option string)
  | CheckWebsites (job_id : Z) (business_ids : option (list Z)).

Record World : Type := mkWorld {
  jobs : list CrawlJob.t;
  businesses : list Business.t;
  website_checks : list WebsiteCheck.t;
  (** tasks sent to the broker; a task's id is its position *)
  sent_tasks : list TaskCall;
  (** ids passed to [celery_app.control.revoke] *)
  revoked : list TaskId
}.

Definition set_jobs v w :=
  mkWorld v (businesses w) (website_checks w) (sent_tasks w) (revoked w).
Definition set_businesses v w :=
  mkWorld (jobs w) v (website_checks w) (sent_tasks w) (revoked w).
Definition set_website_checks v w :=
  mkWorld (jobs w) (businesses w) v (sent_tasks w) (revoked w).
Definition set_sent_tasks v w :=
  mkWorld (jobs w) (businesses w) (website_checks w) v (revoked w).
Definition set_revoked v w :=
  mkWorld (jobs w) (businesses w) (website_checks w) (sent_tasks w) v.

(** [db.query(CrawlJob).filter(CrawlJob.id == job_id).first()]. *)
Definition find_job (job_id : Z) (w : World) : option CrawlJob.t :=
  find (fun j => CrawlJob.id j =? job_id) (jobs w).

(** The UPDATE a commit issues for the job object: the assigned columns of
    the row with that primary key. *)
Definition update_job (job_id : Z) (f : CrawlJob.t -> CrawlJob.t)
    (w : World) : World :=
  set_jobs (map (fun j => if CrawlJob.id j =? job_id then f j else j) (jobs w)) w.

(** The next value of an autoincrement primary key. *)
Definition next_id {A} (key : A -> Z) (rows : list A) : Z :=
  1 + fold_right (fun r m => Z.max (key r) m) 0 rows.

(** [celery_app.send_task(...)]: the call is queued and its id returned. *)
Definition send_task (c : TaskCall) (w : World) : TaskId * World :=
  (List.length (sent_tasks w), set_sent_tasks (sent_tasks w ++ [c])%list w).

(** ** The jobs API ([app/api/v1/jobs.py]) *)

(** What a request handler gives back: its return value, or the
    [HTTPException] it raises. *)
Inductive Response (A : Type) : Type :=
  | Ok (body : A)
  | HTTPException (status_code : Z) (detail : string).
Arguments Ok {A} body.
Arguments HTTPException {A} status_code detail.

(** The body [{"job_id": .., "task_id": .., "status": ..}]. *)
Record Dispatched : Type := mkDispatched {
  d_job_id : Z;
  d_task_id : TaskId;
  d_status : string
}.

(** A request runs in its own session ([get_db]): the handler works on the
    loaded job object, [db.commit()] writes the object back to its row, and
    the session is closed when the request ends, so that a handler which
    raises before committing leaves the table as it found it. *)
Definition commit_job (job : CrawlJob.t) (w : World) : World :=
  update_job (CrawlJob.id job) (fun _ => job) w.

(** [CrawlJob(name=.., job_type=.., status=PENDING, ..)] followed by
    [db.add], [db.commit] and [db.refresh]: the column defaults are filled
    in and the row gets the next primary key. *)
Definition add_job (name : string) (job_type : JobType)
    (parameters target_location target_industry : option string)
    (w : World) : CrawlJob.t * World :=
  let job :=
    CrawlJob.mk (next_id CrawlJob.id (jobs w)) name job_type PENDING
      parameters target_location target_industry 0 0 0 0 None 0 3 None None
      None in
  (job, set_jobs (jobs w ++ [job])%list w).

Definition start_google_maps_crawl (location : string)
    (industry : option string) (w : World) : Response Dispatched * World :=
  let q := Py.dquote in
  let parameters :=
    "{" ++ q ++ "location" ++ q ++ ": " ++ q ++ location ++ q ++ ", "
        ++ q ++ "industry" ++ q ++ ": " ++ q ++ Py.fmt_opt industry ++ q
        ++ "}" in
  let '(job, w1) :=
    add_job ("Google Maps crawl - " ++ location) GOOGLE_MAPS
      (Some parameters) (Some location) industry w in
  let '(task, w2) :=
    send_task (CrawlGoogleMaps (CrawlJob.id job) (Some location) industry) w1 in
  let job := CrawlJob.set_celery_task_id (Some task) job in
  (Ok (mkDispatched (CrawlJob.id job) task "started"), commit_job job w2).

Definition start_website_check (business_ids : option (list Z))
    (w : World) : Response Dispatched * World :=
  let q := Py.dquote in
  let parameters :=
    "{" ++ q ++ "business_ids" ++ q ++ ": "
        ++ match business_ids with
           | Some l => Py.str_int_list l
           | None => "None"
           end
        ++ "}" in
  let '(job, w1) :=
    add_job "Website check job" WEBSITE_CHECK (Some parameters) None None w in
  let '(task, w2) :=
    send_task (CheckWebsites (CrawlJob.id job) business_ids) w1 in
  let job := CrawlJob.set_celery_task_id (Some task) job in
  (Ok (mkDispatched (CrawlJob.id job) task "started"), commit_job job w2).

Definition cancel_job (job_id : Z) (w : World) : Response string * World :=
  match find_job job_id w with
  | None => (HTTPException 404 "Job not found", w)
  | Some job =>
      match CrawlJob.status job with
      | PENDING | RUNNING =>
          (* Cancel Celery task if it exists *)
          let w1 :=
            match CrawlJob.celery_task_id job with
            | Some task => set_revoked (revoked w ++ [task])%list w
            | None => w
            end in
          let job := CrawlJob.set_status CANCELLED job in
          (Ok "Job cancelled successfully", commit_job job w1)
      | COMPLETED | FAILED | CANCELLED =>
          (HTTPException 400 "Job cannot be cancelled", w)
      end
  end.

Definition retry_job (job_id : Z) (w : World) : Response Dispatched * World :=
  match find_job job_id w with
  | None => (HTTPException 404 "Job not found", w)
  | Some job =>
      if negb (CrawlJob.can_retry job) then
        (HTTPException 400 "Job cannot be retried", w)
      else
        (* Reset job status *)
        let job := CrawlJob.set_status PENDING job in
        let job := CrawlJob.set_retry_count (CrawlJob.retry_count job + 1) job in
        let job := CrawlJob.set_error_message None job in
        (* Start new Celery task based on job type *)
        match CrawlJob.job_type job with
        | GOOGLE_MAPS =>
            let '(task, w1) :=
              send_task (CrawlGoogleMaps (CrawlJob.id job)
                           (CrawlJob.target_location job)
                           (CrawlJob.target_industry job)) w in
            let job := CrawlJob.set_celery_task_id (Some task) job in
            (Ok (mkDispatched (CrawlJob.id job) task "retried"),
             commit_job job w1)
        | WEBSITE_CHECK =>
            let '(task, w1) :=
              send_task (CheckWebsites (CrawlJob.id job) None) w in
            let job := CrawlJob.set_celery_task_id (Some task) job in
            (Ok (mkDispatched (CrawlJob.id job) task "retried"),
             commit_job job w1)
        | LINKEDIN | FACEBOOK | CHAMBER_OF_COMMERCE | DATA_ENRICHMENT =>
            (* raised with the assignments above still uncommitted *)
            (HTTPException 400 "Unsupported job type for retry", w)
        end
  end.

(** A request is accepted when its handler returns rather than raises. *)
Definition accepted {A} (r : Response A) : bool :=
  match r with Ok _ => true | HTTPException _ _ => false end.

(** ** The collaborators of the executors *)

(** [dns.resolver.resolve(domain, 'A')]: the records, or the exception. *)
Inductive DnsAnswer : Type :=
  | DnsRecords (records : list string)
  | NXDOMAIN
  | DnsError (msg : string).

(** [requests.get(url, timeout=10, headers=..)] timed by two clock readings:
    the response with the elapsed time, or the exception. *)
Inductive HttpAnswer : Type :=
  | HttpResponse (status_code : Z) (headers : list (string * string))
      (elapsed : Q)
  | HttpError (msg : string).

(** The program points at which an executor reads the clock for a
    timestamp. *)
Inductive ClockPoint : Set :=
  | AtStart
  | AtItem (i : nat)
  | AtEnd.

Record Env : Type := mkEnv {
  resolve : string -> DnsAnswer;
  fetch : string -> HttpAnswer;
  (** an exception leaving the call [check_business_website(business)],
      that is one raised outside its per-domain handlers (such as the
      [SoftTimeLimitExceeded] of the [task_soft_time_limit] set in
      [celery_app.py]) *)
  probe_raises : Business.t -> option string;
  (** [current_task.update_state(state='PROGRESS', meta={'current': c,
      'total': t})]: [Some e] when the call raises [e] *)
  update_state : Z -> Z -> option string;
  clock : ClockPoint -> Time
}.

(** What a task gives back: its return dictionary, or the exception it
    re-raises. *)
Inductive TaskResult : Type :=
  | CrawlReport (businesses_found total_processed : Z)
  | CheckReport (successful_checks failed_checks total_processed : Z)
  | TaskRaised (e : string).

(** ** The session of a task *)

(** What the code offers to a timestamp column.  The columns
    [CrawlJob.started_at], [CrawlJob.completed_at] and
    [Business.last_checked] are declared [DateTime(timezone=True)]: on a
    flush the column takes [datetime] objects and refuses a float.  The
    tasks assign [time.time()], which is a float. *)
Inductive PyTime : Type :=
  | PyDatetime (t : Time)
  | PyFloat (seconds : Time).

Definition time_time (env : Env) (p : ClockPoint) : PyTime :=
  PyFloat (clock env p).

Definition is_datetime (v : PyTime) : bool :=
  match v with
  | PyDatetime _ => true
  | PyFloat _ => false
  end.

(** The two exceptions of a commit, by the name of their class; their text
    depends on the database driver. *)
Definition StatementError : string := "StatementError".
Definition PendingRollbackError : string := "PendingRollbackError".

(** The transaction of a session ([get_db_session()]).  A flush that fails
    leaves it inactive: until [db.rollback()], which the tasks never call,
    every further commit raises [PendingRollbackError]. *)
Inductive Session : Set :=
  | Active
  | Inactive.

(** [db.commit()].  [stamps] are the values the objects to be flushed hold
    for their timestamp columns, [write] is what the flush writes when
    every value is taken.  The objects of the session carry a clock reading
    as the number it is; that it was assigned as a float is what [stamps]
    records. *)
Definition commit (s : Session) (stamps : list PyTime)
    (write : World -> World) (w : World) : Session * (World + string) :=
  match s with
  | Inactive => (Inactive, inr PendingRollbackError)
  | Active =>
      if forallb is_datetime stamps then (Active, inl (write w))
      else (Inactive, inr StatementError)
  end.

(** The first lines of both tasks: the job is looked up and, when found,
    marked running and stamped; the change is committed at once. *)
Definition task_begin (env : Env) (job_id : Z) (w : World)
    : option CrawlJob.t * (Session * (World + string)) :=
  let job := find_job job_id w in
  match job with
  | Some _ =>
      (* job.status = RUNNING; job.started_at = time.time(); db.commit() *)
      (job,
       commit Active [time_time env AtStart]
         (update_job job_id
            (fun j => CrawlJob.set_started_at (Some (clock env AtStart))
                        (CrawlJob.set_status RUNNING j))) w)
  | None => (job, (Active, inl w))
  end.

(** The assignments of the final status write of a task. *)
Definition mark_completed (env : Env) (total successful failed : Z)
    (j : CrawlJob.t) : CrawlJob.t :=
  CrawlJob.set_failed_items failed
    (CrawlJob.set_successful_items successful
       (CrawlJob.set_processed_items total
          (CrawlJob.set_total_items total
             (CrawlJob.set_completed_at (Some (clock env AtEnd))
                (CrawlJob.set_status COMPLETED j))))).

(** The assignments of the [except Exception as e] handler of a task. *)
Definition mark_failed (e : string) (j : CrawlJob.t) : CrawlJob.t :=
  CrawlJob.set_error_message (Some e) (CrawlJob.set_status FAILED j).

(** The [except Exception as e] handler of a task: when there is a job
    object it is marked failed and the session committed, with [pending]
    what else the session has to flush; then [e] is raised again.  A commit
    that raises inside the handler ends the task with its own exception. *)
Definition task_except (s : Session) (stamps : list PyTime)
    (pending : World -> World) (job_id : Z) (job : option CrawlJob.t)
    (e : string) (w : World) : TaskResult * World :=
  match job with
  | Some _ =>
      (* job.status = FAILED; job.error_message = str(e); db.commit() *)
      match
        commit s stamps
          (fun w => pending (update_job job_id (mark_failed e) w)) w
      with
      | (_, inl w') => (TaskRaised e, w')
      | (_, inr e') => (TaskRaised e', w)
      end
  | None => (TaskRaised e, w)
  end.

(** ** The website-check executor ([tasks/website_check_tasks.py]) *)

(** The [check_details] dictionary. *)
Record CheckDetails : Type := mkDetails {
  cd_dns_records : list string;
  cd_headers : list (string * string);
  cd_status_code : option Z;
  cd_response_time : option Q;
  cd_error_message : option string;
  cd_is_error : bool
}.

Definition initial_details : CheckDetails :=
  mkDetails [] [] None None None false.

Definition set_cd_dns_records v d :=
  mkDetails v (cd_headers d) (cd_status_code d) (cd_response_time d)
    (cd_error_message d) (cd_is_error d).
Definition set_cd_error_message v d :=
  mkDetails (cd_dns_records d) (cd_headers d) (cd_status_code d)
    (cd_response_time d) v (cd_is_error d).
Definition set_cd_response (status : Z) (elapsed : Q)
    (hs : list (string * string)) d :=
  mkDetails (cd_dns_records d) hs (Some status) (Some elapsed)
    (cd_error_message d) (cd_is_error d).

(** [business.name.lower().replace(' ', '').replace('-', '')]. *)
Definition business_name (business : Business.t) : string :=
  Py.remove "-" (Py.remove " " (Py.lower (Business.name business))).

Definition potential_domains (business : Business.t) : list string :=
  [ business_name business ++ ".nl";
    business_name business ++ ".com";
    business_name business ++ ".be";
    business_name business ++ ".de";
    business_name business ++ ".lu" ].

(** The [for domain in potential_domains] loop of
    [check_business_website], with the value returned after it. *)
Fixpoint probe_domains (env : Env) (domains : list string)
    (check_details : CheckDetails) : bool * Q * CheckDetails :=
  match domains with
  | [] => (false, 0.0, check_details)
  | domain :: rest =>
      match resolve env domain with
      | NXDOMAIN => probe_domains env rest check_details
      | DnsError e =>
          probe_domains env rest (set_cd_error_message (Some e) check_details)
      | DnsRecords records =>
          let check_details := set_cd_dns_records records check_details in
          match fetch env ("https://" ++ domain) with
          | HttpError e =>
              probe_domains env rest
                (set_cd_error_message (Some e) check_details)
          | HttpResponse status_code headers elapsed =>
              let check_details :=
                set_cd_response status_code elapsed headers check_details in
              if status_code =? 200 then (true, 0.9, check_details)
              else if status_code <? 400 then (true, 0.7, check_details)
              else probe_domains env rest check_details
          end
      end
  end%Q.

Definition check_business_website (env : Env) (business : Business.t)
    : bool * Q * CheckDetails :=
  probe_domains env (potential_domains business) initial_details.

(** The URL both the check row and the business are given:
    [f"https://{business.name.lower().replace(' ', '')}.nl"]. *)
Definition nl_url (business : Business.t) : string :=
  "https://" ++ Py.remove " " (Py.lower (Business.name business)) ++ ".nl".

(** The session of one run of [check_websites]: the business objects it
    has assigned to, the check rows it has added, and the two counters. *)
Record CheckRun : Type := mkCheckRun {
  dirty : list Business.t;
  added : list WebsiteCheck.t;
  successful_checks : Z;
  failed_checks : Z
}.

(** The [try]/[except] of the loop body for one business. *)
Definition check_one (env : Env) (i : nat) (business : Business.t)
    (run : CheckRun) : CheckRun :=
  match probe_raises env business with
  | None =>
      let '(website_exists, confidence_score, check_details) :=
        check_business_website env business in
      (* Create website check record *)
      let website_check :=
        WebsiteCheck.mk (Business.id business) "combined" (nl_url business)
          website_exists confidence_score (cd_status_code check_details)
          (cd_response_time check_details)
          (Some (cd_dns_records check_details))
          (Some (cd_headers check_details))
          (cd_error_message check_details) (cd_is_error check_details) in
      (* Update business record *)
      let business := Business.set_website_exists (Some website_exists) business in
      let business :=
        Business.set_website_confidence_score (Some confidence_score) business in
      let business :=
        Business.set_last_checked (Some (clock env (AtItem i))) business in
      let business :=
        if website_exists
        then Business.set_website_url (Some (nl_url business)) business
        else business in
      mkCheckRun (dirty run ++ [business]) (added run ++ [website_check])
        (successful_checks run + 1) (failed_checks run)
  | Some e =>
      (* Create error record *)
      let website_check :=
        WebsiteCheck.mk (Business.id business) "combined" (nl_url business)
          false 0.0 None None None None (Some e) true in
      mkCheckRun (dirty run) (added run ++ [website_check])
        (successful_checks run) (failed_checks run + 1)
  end%list.

(** The [for i, business in enumerate(businesses)] loop from index [i] on.
    The progress report comes after the [try]/[except], so an exception of
    [update_state] ends the loop and reaches the handler of the task. *)
Fixpoint check_loop (env : Env) (total_businesses : Z) (i : nat)
    (businesses : list Business.t) (run : CheckRun)
    : CheckRun * option string :=
  match businesses with
  | [] => (run, None)
  | business :: rest =>
      let run := check_one env i business run in
      match update_state env (Z.of_nat i + 1) total_businesses with
      | Some e => (run, Some e)
      | None => check_loop env total_businesses (S i) rest run
      end
  end.

(** Get businesses to check. *)
Definition select_businesses (business_ids : option (list Z))
    (w : World) : list Business.t :=
  if Py.truthy business_ids then
    filter (fun b => existsb (Z.eqb (Business.id b))
                       (match business_ids with Some l => l | None => [] end))
      (businesses w)
  else
    firstn 100
      (filter (fun b => match Business.website_exists b with
                        | None => true
                        | Some _ => false
                        end) (businesses w)).

(** A commit of the session writes each assigned business object back to
    its row and inserts the added check rows. *)
Definition write_business (business : Business.t) (rows : list Business.t)
    : list Business.t :=
  map (fun b => if Business.id b =? Business.id business then business else b)
    rows.

Definition flush_checks (run : CheckRun) (w : World) : World :=
  set_website_checks (website_checks w ++ added run)%list
    (set_businesses
       (fold_left (fun rows b => write_business b rows) (dirty run)
          (businesses w)) w).

(** The part of [check_websites] between the two status writes. *)
Definition check_body (env : Env) (business_ids : option (list Z))
    (w : World) : Z * (CheckRun * option string) :=
  let businesses := select_businesses business_ids w in
  let total_businesses := Z.of_nat (List.length businesses) in
  (total_businesses,
   check_loop env total_businesses 0 businesses (mkCheckRun [] [] 0 0)).

(** The [last_checked] values held by the business objects a run has
    assigned to: each is a [time.time()] reading. *)
Definition last_checked_stamps (run : CheckRun) : list PyTime :=
  flat_map
    (fun b => match Business.last_checked b with
              | Some t => [PyFloat t]
              | None => []
              end) (dirty run).

(** The end of [check_websites]: the final status write after the loop, or
    the handler of the task when the loop raised.  [job] is the object
    loaded by [task_begin]; nothing is committed when there is none.  The
    final commit stands inside the [try]: when it raises, the handler
    runs. *)
Definition check_end (env : Env) (s : Session) (job_id : Z)
    (job : option CrawlJob.t) (body : Z * (CheckRun * option string))
    (w : World) : TaskResult * World :=
  let '(total_businesses, (run, raised)) := body in
  match raised with
  | None =>
      match job with
      | Some _ =>
          (* job.status = COMPLETED; job.completed_at = time.time(); the
             four counters; db.commit() *)
          match
            commit s (time_time env AtEnd :: last_checked_stamps run)
              (fun w =>
                 flush_checks run
                   (update_job job_id
                      (mark_completed env total_businesses
                         (successful_checks run) (failed_checks run)) w)) w
          with
          | (_, inl w') =>
              (CheckReport (successful_checks run) (failed_checks run)
                 total_businesses, w')
          | (s', inr e) =>
              task_except s' (time_time env AtEnd :: last_checked_stamps run)
                (flush_checks run) job_id job e w
          end
      | None =>
          (CheckReport (successful_checks run) (failed_checks run)
             total_businesses, w)
      end
  | Some e =>
      task_except s (last_checked_stamps run) (flush_checks run) job_id job
        e w
  end.

Definition check_websites (env : Env) (job_id : Z)
    (business_ids : option (list Z)) (w : World) : TaskResult * World :=
  let '(job, (s, begun)) := task_begin env job_id w in
  match begun with
  | inl w => check_end env s job_id job (check_body env business_ids w) w
  | inr e =>
      (* the first commit raised: the handler of the task runs *)
      task_except s [time_time env AtStart] (fun w => w) job_id job e w
  end.

(** ** The crawl executor ([tasks/crawl_tasks.py]) *)

(** The primary key of a [Business] object built from [business_data] and
    not stored yet; the table gives the key on insert. *)
Definition unsaved : Z := 0.

(** The placeholder list of discovered businesses. *)
Definition example_businesses (job_id : Z) (location : string)
    (industry : option string) : list Business.t :=
  let city := Py.strip (Py.split_first "," location) in
  let country :=
    if Py.contains "," location then Py.strip (Py.split_last "," location)
    else "Netherlands" in
  [ Business.mk unsaved ("Test Business 1 - " ++ location)
      (Some ("Test Address 1, " ++ location)) (Some city) (Some country)
      (Some "+31 6 12345678") (Some "info@testbusiness1.nl")
      (Some "Webdesign") (Some (Py.or_else industry "Technology")) true
      (Some false) None None (Some "google_maps")
      (Some ("gm_1_" ++ Py.str_int job_id)) (Some 0.8%Q) None;
    Business.mk unsaved ("Test Business 2 - " ++ location)
      (Some ("Test Address 2, " ++ location)) (Some city) (Some country)
      (Some "+31 6 87654321") (Some "info@testbusiness2.nl")
      (Some "Marketing") (Some (Py.or_else industry "Marketing")) true
      (Some true) (Some "https://testbusiness2.nl") None (Some "google_maps")
      (Some ("gm_2_" ++ Py.str_int job_id)) (Some 0.9%Q) None ].

(** The filter [Business.source_id == business_data["source_id"]]. *)
Definition source_id_is (source_id : option string) (b : Business.t) : bool :=
  match source_id, Business.source_id b with
  | Some x, Some y => String.eqb x y
  | None, None => true
  | _, _ => false
  end.

(** The session of one run of [crawl_google_maps]: the objects it has added
    and its counter. *)
Record CrawlRun : Type := mkCrawlRun {
  new_businesses : list Business.t;
  businesses_found : Z
}.

(** The loop body for one candidate.  The session is created with
    [autoflush=False], so the lookup sees the stored rows and not the
    objects added earlier in the run.  The progress report and the pause sit
    inside the [try]: an exception there is logged and the loop goes on,
    with the candidate already added and counted. *)
Definition crawl_one (w : World) (business_data : Business.t)
    (run : CrawlRun) : CrawlRun :=
  let existing :=
    find (source_id_is (Business.source_id business_data)) (businesses w) in
  match existing with
  | None =>
      mkCrawlRun (new_businesses run ++ [business_data])%list
        (businesses_found run + 1)
  | Some _ => run
  end.

Definition crawl_loop (w : World) (candidates : list Business.t)
    (run : CrawlRun) : CrawlRun :=
  fold_left (fun run business_data => crawl_one w business_data run)
    candidates run.

(** The INSERTs a commit issues for the added businesses. *)
Definition insert_businesses (new : list Business.t) (w : World) : World :=
  set_businesses
    (fold_left
       (fun rows b => rows ++ [Business.set_id (next_id Business.id rows) b])%list
       new (businesses w)) w.

(** The part of [crawl_google_maps] between the two status writes: the
    number of candidates and the run, or the exception raised.  The
    candidate list calls [location.split], which raises when the task was
    sent with no location. *)
Definition crawl_body (job_id : Z) (location industry : option string)
    (w : World) : (Z * CrawlRun) + string :=
  match location with
  | Some location =>
      let example_businesses := example_businesses job_id location industry in
      inl (Z.of_nat (List.length example_businesses),
           crawl_loop w example_businesses (mkCrawlRun [] 0))
  | None => inr "'NoneType' object has no attribute 'split'"
  end.

(** The end of [crawl_google_maps]: the final status write, or the handler
    of the task.  The final commit stands inside the [try]: when it raises,
    the handler runs. *)
Definition crawl_end (env : Env) (s : Session) (job_id : Z)
    (job : option CrawlJob.t) (body : (Z * CrawlRun) + string) (w : World)
    : TaskResult * World :=
  match body with
  | inl (total, run) =>
      match job with
      | Some _ =>
          (* job.status = COMPLETED; job.completed_at = time.time(); the
             four counters; db.commit() *)
          match
            commit s [time_time env AtEnd]
              (fun w =>
                 insert_businesses (new_businesses run)
                   (update_job job_id
                      (mark_completed env total (businesses_found run)
                         (total - businesses_found run)) w)) w
          with
          | (_, inl w') => (CrawlReport (businesses_found run) total, w')
          | (s', inr e) =>
              task_except s' [time_time env AtEnd]
                (insert_businesses (new_businesses run)) job_id job e w
          end
      | None => (CrawlReport (businesses_found run) total, w)
      end
  | inr e => task_except s [] (fun w => w) job_id job e w
  end.

Definition crawl_google_maps (env : Env) (job_id : Z)
    (location industry : option string) (w : World) : TaskResult * World :=
  let '(job, (s, begun)) := task_begin env job_id w in
  match begun with
  | inl w => crawl_end env s job_id job (crawl_body job_id location industry w) w
  | inr e =>
      (* the first commit raised: the handler of the task runs *)
      task_except s [time_time env AtStart] (fun w => w) job_id job e w
  end.

(** ** The worker: running a dispatched task *)

Definition run_task (env : Env) (c : TaskCall) (w : World)
    : TaskResult * World :=
  match c with
  | CrawlGoogleMaps job_id location industry =>
      crawl_google_maps env job_id location industry w
  | CheckWebsites job_id business_ids =>
      check_websites env job_id business_ids w
  end.

(** ** Vocabulary of the statements *)

(** The state of a job is terminal. *)
Definition terminal (s : JobStatus) : bool :=
  match s with
  | COMPLETED | FAILED | CANCELLED => true
  | PENDING | RUNNING => false
  end.

(** What the probe gets for one domain: the HTTP status when the name
    resolves and the fetch returns, nothing otherwise. *)
Definition http_status (env : Env) (domain : string) : option Z :=
  match resolve env domain with
  | DnsRecords _ =>
      match fetch env ("https://" ++ domain) with
      | HttpResponse status_code _ _ => Some status_code
      | HttpError _ => None
      end
  | NXDOMAIN | DnsError _ => None
  end.

(** The domain answers with a status below 400. *)
Definition responds (env : Env) (domain : string) : bool :=
  match http_status env domain with
  | Some status_code => status_code <? 400
  | None => false
  end.

(** The provenance of a business: its source and its key there. *)
Definition provenance (b : Business.t) : option string * option string :=
  (Business.source b, Business.source_id b).

(** No stored business has the source id of the candidate. *)
Definition unknown (w : World) (candidate : Business.t) : bool :=
  match find (source_id_is (Business.source_id candidate)) (businesses w) with
  | None => true
  | Some _ => false
  end.

(** The four counters of a job. *)
Definition counters (j : CrawlJob.t) : Z * Z * Z * Z :=
  (CrawlJob.total_items j, CrawlJob.processed_items j,
   CrawlJob.successful_items j, CrawlJob.failed_items j).

(** The state of a job with its two timestamps, as a reader of the table
    sees them. *)
Definition lifecycle (job_id : Z) (w : World)
    : option (JobStatus * option Time * option Time) :=
  option_map
    (fun j => (CrawlJob.status j, CrawlJob.started_at j, CrawlJob.completed_at j))
    (find_job job_id w).

Definition status_of (job_id : Z) (w : World) : option JobStatus :=
  option_map CrawlJob.status (find_job job_id w).

(** Every resolution of a candidate of the business raises a DNS error
    other than NXDOMAIN. *)
Definition dns_errors (env : Env) (business : Business.t) : Prop :=
  forall d, In d (potential_domains business) ->
            exists e, resolve env d = DnsError e.

(** ** Concrete scenarios *)

Module Scenario.

(** A stored business that has never been checked. *)
Definition business (id : Z) (name : string) : Business.t :=
  Business.mk id name None (Some "Amsterdam") (Some "Netherlands") None None
    None None true None None None (Some "manual") None None None.

Definition alpha : Business.t := business 1 "Alpha Bakery".
Definition test2 : Business.t := business 2 "Test Business 2".

(** A catalogue of two businesses, no job yet, an idle broker. *)
Definition catalogue : World := mkWorld [] [alpha; test2] [] [] [].

(** A run that starts at time [t]. *)
Definition clock_from (t : Time) (p : ClockPoint) : Time :=
  match p with
  | AtStart => t
  | AtItem i => t + 1 + Z.of_nat i
  | AtEnd => t + 100
  end.

(** Only [alphabakery.nl] exists; every other name makes the resolver
    raise a timeout. *)
Definition dns_timeouts : Env :=
  mkEnv
    (fun domain =>
       if String.eqb domain "alphabakery.nl" then DnsRecords ["192.0.2.1"]
       else DnsError "The DNS operation timed out.")
    (fun _ => HttpResponse 200 [("Server", "nginx")] 0.25%Q)
    (fun _ => None) (fun _ _ => None) (clock_from 10).

(** Only [testbusiness2.nl] exists and answers 200. *)
Definition test2_online : Env :=
  mkEnv
    (fun domain =>
       if String.eqb domain "testbusiness2.nl" then DnsRecords ["192.0.2.2"]
       else NXDOMAIN)
    (fun _ => HttpResponse 200 [] 0.25%Q)
    (fun _ => None) (fun _ _ => None) (clock_from 10).

(** The progress report raises, so the task ends in its handler. *)
Definition broken_progress (t : Time) : Env :=
  mkEnv (fun _ => NXDOMAIN) (fun _ => HttpError "unreachable")
    (fun _ => None) (fun _ _ => Some "backend unavailable") (clock_from t).

(** The world of [dns_timeouts] at a later time. *)
Definition later (t : Time) : Env :=
  mkEnv (resolve dns_timeouts) (fetch dns_timeouts) (fun _ => None)
    (fun _ _ => None) (clock_from t).

(** A website-check job over the businesses 1 and 2 has been started. *)
Definition check_started : World :=
  snd (start_website_check (Some [1; 2]) catalogue).

(** A discovery job for Amsterdam has been started. *)
Definition crawl_started : World :=
  snd (start_google_maps_crawl "Amsterdam, Netherlands" None catalogue).

(** A failed job of a kind that has no executor to retry with. *)
Definition linkedin_job : CrawlJob.t :=
  CrawlJob.mk 1 "LinkedIn crawl - Utrecht" LINKEDIN FAILED None
    (Some "Utrecht") None 0 0 0 0 (Some "boom") 0 3 None (Some 10) None.

Definition linkedin_failed : World := mkWorld [linkedin_job] [] [] [] [].

(** A failed discovery job whose row carries a completion time. *)
Definition failed_job : CrawlJob.t :=
  CrawlJob.mk 1 "Google Maps crawl - Utrecht" GOOGLE_MAPS FAILED None
    (Some "Utrecht") None 2 2 0 2 (Some "boom") 0 3 (Some 0%nat)
    (Some 10) (Some 20).

Definition failed_with_completion_time : World :=
  mkWorld [failed_job] [] [] [CrawlGoogleMaps 1 (Some "Utrecht") None] [].

(** A catalogue in which the first candidate of the discovery job 7 for
    Utrecht is stored already. *)
Definition found_before : World :=
  mkWorld []
    [alpha; Business.set_id 2 (hd alpha (example_businesses 7 "Utrecht" None))]
    [] [] [].

(** A website-check job whose task is running. *)
Definition running_job : CrawlJob.t :=
  CrawlJob.mk 1 "Website check job" WEBSITE_CHECK RUNNING None None None
    0 0 0 0 None 0 3 (Some 0%nat) (Some 10) None.

Definition check_running : World :=
  mkWorld [running_job] [alpha; test2] [] [CheckWebsites 1 (Some [1; 2])] [].

End Scenario.

(** ** The read side of the jobs API and the derived job properties *)

Definition JobType_eqb (a b : JobType) : bool :=
  match a, b with
  | GOOGLE_MAPS, GOOGLE_MAPS | LINKEDIN, LINKEDIN | FACEBOOK, FACEBOOK
  | CHAMBER_OF_COMMERCE, CHAMBER_OF_COMMERCE | WEBSITE_CHECK, WEBSITE_CHECK
  | DATA_ENRICHMENT, DATA_ENRICHMENT => true
  | _, _ => false
  end.

(** [get_job]: the body is [job.to_dict()], which lists the columns of the
    row; the model returns the row. *)
Definition get_job (job_id : Z) (w : World) : Response CrawlJob.t :=
  match find_job job_id w with
  | None => HTTPException 404 "Job not found"
  | Some job => Ok job
  end.

(** [get_jobs]: the optional filters, then [offset(skip).limit(limit)].  A
    status or a job type given is truthy; [skip] and [limit] are taken
    non-negative, as the database requires of them. *)
Definition get_jobs (skip limit : nat) (status : option JobStatus)
    (job_type : option JobType) (w : World) : list CrawlJob.t :=
  let query := jobs w in
  let query :=
    match status with
    | Some s => filter (fun j => JobStatus_eqb (CrawlJob.status j) s) query
    | None => query
    end in
  let query :=
    match job_type with
    | Some t => filter (fun j => JobType_eqb (CrawlJob.job_type j) t) query
    | None => query
    end in
  firstn limit (skipn skip query).

(** The [progress_percentage] property of [CrawlJob]:
    [(processed_items / total_items) * 100], or 0 for an empty job.  The
    true division is taken exactly. *)
Definition progress_percentage (j : CrawlJob.t) : Q :=
  if CrawlJob.total_items j =? 0 then 0%Q
  else ((inject_Z (CrawlJob.processed_items j)
         / inject_Z (CrawlJob.total_items j)) * 100)%Q.

(** The job a dispatched task works for: its first argument. *)
Definition task_job (c : TaskCall) : Z :=
  match c with
  | CrawlGoogleMaps job_id _ _ => job_id
  | CheckWebsites job_id _ => job_id
  end.

(** The assignments of an accepted retry, with the id of the new task. *)
Definition retried (task : TaskId) (job : CrawlJob.t) : CrawlJob.t :=
  CrawlJob.set_celery_task_id (Some task)
    (CrawlJob.set_error_message None
       (CrawlJob.set_retry_count (CrawlJob.retry_count job + 1)
          (CrawlJob.set_status PENDING job))).

(** ** The single-business check task ([check_single_website]) *)

(** What the task gives back: its return dictionary, or the exception it
    re-raises. *)
Inductive SingleResult : Type :=
  | SingleChecked (business_id : Z) (website_exists : bool)
      (confidence_score : Q)
  | SingleRaised (e : string).

(** [db.query(Business).filter(Business.id == business_id).first()]. *)
Definition find_business (business_id : Z) (w : World) : option Business.t :=
  find (fun b => Business.id b =? business_id) (businesses w).

(** The task looks the business up, raises [ValueError] when there is none,
    and otherwise does for it what the loop body of [check_websites] does,
    with the check type "single" and a commit of its own, which has the
    [time.time()] of [last_checked] to write.  Whatever is raised, by the
    commit too, is logged and raised again, with nothing committed. *)
Definition check_single_website (env : Env) (business_id : Z) (w : World)
    : SingleResult * World :=
  match find_business business_id w with
  | None =>
      (SingleRaised ("Business " ++ Py.str_int business_id ++ " not found"), w)
  | Some business =>
      match probe_raises env business with
      | Some e => (SingleRaised e, w)
      | None =>
          let '(website_exists, confidence_score, check_details) :=
            check_business_website env business in
          (* Create website check record *)
          let website_check :=
            WebsiteCheck.mk (Business.id business) "single" (nl_url business)
              website_exists confidence_score (cd_status_code check_details)
              (cd_response_time check_details)
              (Some (cd_dns_records check_details))
              (Some (cd_headers check_details))
              (cd_error_message check_details) (cd_is_error check_details) in
          (* Update business record *)
          let business' :=
            Business.set_website_exists (Some website_exists) business in
          let business' :=
            Business.set_website_confidence_score (Some confidence_score)
              business' in
          let business' :=
            Business.set_last_checked (Some (clock env AtStart)) business' in
          let business' :=
            if website_exists
            then Business.set_website_url (Some (nl_url business)) business'
            else business' in
          (* db.commit() *)
          match
            commit Active [time_time env AtStart]
              (fun w =>
                 set_website_checks (website_checks w ++ [website_check])%list
                   (set_businesses (write_business business' (businesses w))
                      w)) w
          with
          | (_, inl w') =>
              (SingleChecked business_id website_exists confidence_score, w')
          | (_, inr e) => (SingleRaised e, w)
          end
      end
  end.

(** The last character of a string, if any. *)
Fixpoint last_char (s : string) : option ascii :=
  match s with
  | EmptyString => None
  | String c EmptyString => Some c
  | String _ r => last_char r
  end.

(** ** The system as a whole: requests and workers *)

(** The store after a worker has run the given tasks to their end, one
    after the other. *)
Definition run_tasks (runs : list (Env * TaskCall)) (w : World) : World :=
  fold_left (fun w r => snd (run_task (fst r) (snd r) w)) runs w.

(** What can happen to the store: a request to one of the four writing
    endpoints of the jobs API, a worker running the task with a given id to
    its end, or a run of the single-business check.  A worker may run a
    task that was revoked, and may run a task more than once. *)
Inductive Event : Type :=
  | StartGoogleMapsCrawl (location : string) (industry : option string)
  | StartWebsiteCheck (business_ids : option (list Z))
  | CancelJob (job_id : Z)
  | RetryJob (job_id : Z)
  | Work (env : Env) (task : TaskId)
  | CheckSingle (env : Env) (business_id : Z).

Definition step (e : Event) (w : World) : World :=
  match e with
  | StartGoogleMapsCrawl location industry =>
      snd (start_google_maps_crawl location industry w)
  | StartWebsiteCheck business_ids => snd (start_website_check business_ids w)
  | CancelJob job_id => snd (cancel_job job_id w)
  | RetryJob job_id => snd (retry_job job_id w)
  | Work env task =>
      match nth_error (sent_tasks w) task with
      | Some call => snd (run_task env call w)
      | None => w
      end
  | CheckSingle env business_id =>
      snd (check_single_website env business_id w)
  end.

Definition run_events (events : list Event) (w : World) : World :=
  fold_left (fun w e => step e w) events w.

(** A job row as [add_job] stores it. *)
Definition fresh_job (job : CrawlJob.t) : Prop :=
  CrawlJob.status job = PENDING /\
  counters job = (0, 0, 0, 0) /\
  CrawlJob.error_message job = None /\
  CrawlJob.retry_count job = 0 /\
  CrawlJob.max_retries job = 3 /\
  CrawlJob.celery_task_id job = None /\
  CrawlJob.started_at job = None /\
  CrawlJob.completed_at job = None.

(** A job no task has written to: it is pending or cancelled and has the
    counters, the times, the error message and the retry count of its
    creation. *)
Definition never_run (job : CrawlJob.t) : Prop :=
  (CrawlJob.status job = PENDING \/ CrawlJob.status job = CANCELLED) /\
  counters job = (0, 0, 0, 0) /\
  CrawlJob.error_message job = None /\
  CrawlJob.retry_count job = 0 /\
  CrawlJob.started_at job = None /\
  CrawlJob.completed_at job = None.

(** The task call is the one of the job: its first argument is the id of
    the job, its kind the kind of the job, and a discovery task carries the
    location and industry stored with the job. *)
Definition calls_for (call : TaskCall) (job : CrawlJob.t) : Prop :=
  task_job call = CrawlJob.id job /\
  match call with
  | CrawlGoogleMaps _ location industry =>
      CrawlJob.job_type job = GOOGLE_MAPS /\
      CrawlJob.target_location job = location /\
      CrawlJob.target_industry job = industry
  | CheckWebsites _ _ => CrawlJob.job_type job = WEBSITE_CHECK
  end.

(** The columns of a job no request and no task assigns. *)
Definition same_job (j j' : CrawlJob.t) : Prop :=
  CrawlJob.id j' = CrawlJob.id j /\
  CrawlJob.name j' = CrawlJob.name j /\
  CrawlJob.job_type j' = CrawlJob.job_type j /\
  CrawlJob.parameters j' = CrawlJob.parameters j /\
  CrawlJob.target_location j' = CrawlJob.target_location j /\
  CrawlJob.target_industry j' = CrawlJob.target_industry j /\
  CrawlJob.max_retries j' = CrawlJob.max_retries j.

(** Every job but one is found as before. *)
Definition others_kept (job_id : Z) (w w' : World) : Prop :=
  forall other, other <> job_id -> find_job other w' = find_job other w.

(** What one event does to the jobs table, the queue and the revocations:
    nothing (a refused request, and every run of a task); a new pending job
    with its task; a cancellation; a retry with a new task. *)
Inductive Effect (e : Event) (w w' : World) : Prop :=
  | Quiet :
      jobs w' = jobs w -> sent_tasks w' = sent_tasks w ->
      revoked w' = revoked w ->
      Effect e w w'
  | Started (job : CrawlJob.t) (call : TaskCall) :
      find_job (CrawlJob.id job) w = None ->
      fresh_job job -> calls_for call job ->
      (forall job_id industry, call <> CrawlGoogleMaps job_id None industry) ->
      sent_tasks w' = (sent_tasks w ++ [call])%list ->
      revoked w' = revoked w ->
      find_job (CrawlJob.id job) w'
      = Some (CrawlJob.set_celery_task_id
                (Some (List.length (sent_tasks w))) job) ->
      others_kept (CrawlJob.id job) w w' ->
      Effect e w w'
  | Cancelled (job_id : Z) (job : CrawlJob.t) :
      e = CancelJob job_id ->
      find_job job_id w = Some job ->
      CrawlJob.is_completed job = false ->
      sent_tasks w' = sent_tasks w ->
      revoked w'
      = (revoked w ++ match CrawlJob.celery_task_id job with
                      | Some task => [task]
                      | None => []
                      end)%list ->
      find_job job_id w' = Some (CrawlJob.set_status CANCELLED job) ->
      others_kept job_id w w' ->
      Effect e w w'
  | Retried (job_id : Z) (job : CrawlJob.t) (call : TaskCall) :
      e = RetryJob job_id ->
      find_job job_id w = Some job ->
      CrawlJob.can_retry job = true ->
      calls_for call job ->
      sent_tasks w' = (sent_tasks w ++ [call])%list ->
      revoked w' = revoked w ->
      find_job job_id w' = Some (retried (List.length (sent_tasks w)) job) ->
      others_kept job_id w w' ->
      Effect e w w'.

(** Jobs and tasks belong together: every stored job is of one of the two
    kinds the API starts, a discovery job with its location, and carries
    the id of a dispatched task that calls for it; every dispatched task
    calls for a stored job; every revoked id is the id of a dispatched
    task. *)
Definition dispatch_sound (w : World) : Prop :=
  (forall job_id j,
     find_job job_id w = Some j ->
     (CrawlJob.job_type j = GOOGLE_MAPS /\ CrawlJob.target_location j <> None
      \/ CrawlJob.job_type j = WEBSITE_CHECK) /\
     exists task call,
       CrawlJob.celery_task_id j = Some task /\
       nth_error (sent_tasks w) task = Some call /\
       calls_for call j) /\
  (forall task call,
     nth_error (sent_tasks w) task = Some call ->
     exists j, find_job (task_job call) w = Some j /\ calls_for call j) /\
  (forall task, In task (revoked w) -> (task < List.length (sent_tasks w))%nat).

(** The jobs, the queue and the revocations of [w] are still there in
    [w']: each job is found under its id with the columns it was created
    with, and the two lists have only grown at their ends. *)
Definition extends (w w' : World) : Prop :=
  (forall job_id j,
     find_job job_id w = Some j ->
     exists j', find_job job_id w' = Some j' /\ same_job j j') /\
  (exists sent, sent_tasks w' = (sent_tasks w ++ sent)%list) /\
  (exists ids, revoked w' = (revoked w ++ ids)%list).

(** What the jobs of [w] have become in [w'], each related to what it was
    by [P], and what the jobs are that [w'] has more, each with [N]. *)
Definition history (P : CrawlJob.t -> CrawlJob.t -> Prop)
    (N : CrawlJob.t -> Prop) (w w' : World) : Prop :=
  (forall job_id j,
     find_job job_id w = Some j ->
     exists j', find_job job_id w' = Some j' /\ P j j') /\
  (forall job_id j',
     find_job job_id w = None -> find_job job_id w' = Some j' -> N j').

(** * Properties *)

(** ** Tables *)

Lemma find_job_update_job (job_id : Z) (f : CrawlJob.t -> CrawlJob.t)
    (w : World) :
  (forall j, CrawlJob.id j = job_id -> CrawlJob.id (f j) = job_id) ->
  find_job job_id (update_job job_id f w) = option_map f (find_job job_id w).
Proof.
  intros Hid. unfold find_job, update_job. cbn [jobs set_jobs].
  induction (jobs w) as [|j rows IH]; cbn [map find]; [reflexivity|].
  destruct (CrawlJob.id j =? job_id) eqn:E.
  - apply Z.eqb_eq in E. rewrite (proj2 (Z.eqb_eq _ _) (Hid j E)). reflexivity.
  - rewrite E. exact IH.
Qed.

Lemma find_job_id (job_id : Z) (w : World) (job : CrawlJob.t) :
  find_job job_id w = Some job -> CrawlJob.id job = job_id.
Proof.
  unfold find_job. intros H. apply find_some in H. now apply Z.eqb_eq.
Qed.

Lemma find_job_commit_job (job_id : Z) (job job' : CrawlJob.t) (w : World) :
  find_job job_id w = Some job -> CrawlJob.id job' = job_id ->
  find_job job_id (commit_job job' w) = Some job'.
Proof.
  intros Hf Hid. unfold commit_job. rewrite Hid.
  rewrite find_job_update_job by (intros; exact Hid).
  now rewrite Hf.
Qed.

(** Only the jobs table matters to a job lookup. *)
Lemma find_job_same_jobs (job_id : Z) (w w' : World) :
  jobs w' = jobs w -> find_job job_id w' = find_job job_id w.
Proof. unfold find_job. now intros ->. Qed.

(** ** The commits of a task *)

(** The first commit of a task that has found its job has the
    [time.time()] assigned to [started_at] to write: it raises and leaves
    the session inactive. *)
Lemma task_begin_stored env job_id w job :
  find_job job_id w = Some job ->
  task_begin env job_id w = (Some job, (Inactive, inr StatementError)).
Proof. unfold task_begin. now intros ->. Qed.

Lemma task_begin_unstored env job_id w :
  find_job job_id w = None ->
  task_begin env job_id w = (None, (Active, inl w)).
Proof. unfold task_begin. now intros ->. Qed.

(** A task run for a stored job: the first commit raises, the commit of the
    handler raises in its turn, and nothing is written. *)
Lemma check_websites_stored env job_id business_ids w job :
  find_job job_id w = Some job ->
  check_websites env job_id business_ids w
  = (TaskRaised PendingRollbackError, w).
Proof.
  intros stored. unfold check_websites.
  now rewrite (task_begin_stored env job_id w job stored).
Qed.

Lemma crawl_google_maps_stored env job_id location industry w job :
  find_job job_id w = Some job ->
  crawl_google_maps env job_id location industry w
  = (TaskRaised PendingRollbackError, w).
Proof.
  intros stored. unfold crawl_google_maps.
  now rewrite (task_begin_stored env job_id w job stored).
Qed.

(** A task run for a job that is not stored commits nothing: it returns the
    report of its loop, or raises what the loop raised. *)
Lemma check_websites_unstored env job_id business_ids w :
  find_job job_id w = None ->
  check_websites env job_id business_ids w
  = (let '(total, (run, raised)) := check_body env business_ids w in
     match raised with
     | None =>
         CheckReport (successful_checks run) (failed_checks run) total
     | Some e => TaskRaised e
     end, w).
Proof.
  intros missing. unfold check_websites.
  rewrite (task_begin_unstored env job_id w missing). unfold check_end.
  destruct (check_body env business_ids w) as [total [run [e|]]]; reflexivity.
Qed.

Lemma crawl_google_maps_unstored env job_id location industry w :
  find_job job_id w = None ->
  crawl_google_maps env job_id location industry w
  = (match crawl_body job_id location industry w with
     | inl (total, run) => CrawlReport (businesses_found run) total
     | inr e => TaskRaised e
     end, w).
Proof.
  intros missing. unfold crawl_google_maps.
  rewrite (task_begin_unstored env job_id w missing). unfold crawl_end.
  destruct (crawl_body job_id location industry w) as [[total run]|e];
    reflexivity.
Qed.

(** No run of a task changes the store. *)
Lemma check_websites_store env job_id business_ids w :
  snd (check_websites env job_id business_ids w) = w.
Proof.
  destruct (find_job job_id w) as [job|] eqn:stored.
  - now rewrite (check_websites_stored env job_id business_ids w job stored).
  - now rewrite (check_websites_unstored env job_id business_ids w stored).
Qed.

Lemma crawl_google_maps_store env job_id location industry w :
  snd (crawl_google_maps env job_id location industry w) = w.
Proof.
  destruct (find_job job_id w) as [job|] eqn:stored.
  - now rewrite (crawl_google_maps_stored env job_id location industry w job
                   stored).
  - now rewrite (crawl_google_maps_unstored env job_id location industry w
                   stored).
Qed.

(** A task run for a stored job ends in [PendingRollbackError]. *)
Lemma run_task_stored env call w job :
  find_job (task_job call) w = Some job ->
  run_task env call w = (TaskRaised PendingRollbackError, w).
Proof.
  intros stored.
  destruct call as [job_id location industry|job_id business_ids];
    cbn [run_task task_job] in *.
  - now apply crawl_google_maps_stored with (job := job).
  - now apply check_websites_stored with (job := job).
Qed.

Lemma run_task_store env call w : snd (run_task env call w) = w.
Proof.
  destruct call; cbn [run_task];
    [apply crawl_google_maps_store|apply check_websites_store].
Qed.

Lemma run_tasks_store runs w : run_tasks runs w = w.
Proof.
  unfold run_tasks. induction runs as [|r runs IH]; [reflexivity|].
  cbn [fold_left]. now rewrite run_task_store.
Qed.

(** The single check has the [time.time()] of [last_checked] to write:
    whatever it finds, it raises and stores nothing. *)
Lemma check_single_website_store env business_id w :
  snd (check_single_website env business_id w) = w.
Proof.
  unfold check_single_website.
  destruct (find_business business_id w) as [business|]; [|reflexivity].
  destruct (probe_raises env business); [reflexivity|].
  now destruct (check_business_website env business) as [[? ?] ?].
Qed.

(** ** Cancellation *)

Section Cancellation.

Variables (job_id : Z) (w : World) (job : CrawlJob.t).
Hypothesis stored : find_job job_id w = Some job.

Lemma cancel_job_rejected :
  terminal (CrawlJob.status job) = true ->
  cancel_job job_id w = (HTTPException 400 "Job cannot be cancelled", w).
Proof.
  unfold cancel_job. rewrite stored.
  destruct (CrawlJob.status job); cbn; congruence.
Qed.

Lemma cancel_job_accepted :
  terminal (CrawlJob.status job) = false ->
  fst (cancel_job job_id w) = Ok "Job cancelled successfully" /\
  find_job job_id (snd (cancel_job job_id w))
  = Some (CrawlJob.set_status CANCELLED job) /\
  revoked (snd (cancel_job job_id w))
  = (revoked w ++ match CrawlJob.celery_task_id job with
                  | Some task => [task]
                  | None => []
                  end)%list.
Proof.
  intros Hlive. pose proof (find_job_id _ _ _ stored) as Hid.
  assert (Hgo : cancel_job job_id w =
                (Ok "Job cancelled successfully",
                 commit_job (CrawlJob.set_status CANCELLED job)
                   match CrawlJob.celery_task_id job with
                   | Some task => set_revoked (revoked w ++ [task])%list w
                   | None => w
                   end)).
  { unfold cancel_job. rewrite stored.
    destruct (CrawlJob.status job); cbn in Hlive; congruence. }
  rewrite Hgo. cbn [fst snd]. split; [reflexivity|]. split.
  - apply find_job_commit_job with (job := job); [|exact Hid].
    rewrite <- stored. apply find_job_same_jobs.
    now destruct (CrawlJob.celery_task_id job).
  - destruct (CrawlJob.celery_task_id job); cbn; [reflexivity|].
    now rewrite app_nil_r.
Qed.

End Cancellation.

(** ** The invariant on [completed_at] *)

(** The cancellation does not write [completed_at], for any job in any
    store. *)
Lemma cancel_job_completed_at (job_id : Z) (w : World) (job job' : CrawlJob.t) :
  find_job job_id w = Some job ->
  find_job job_id (snd (cancel_job job_id w)) = Some job' ->
  CrawlJob.completed_at job' = CrawlJob.completed_at job.
Proof.
  intros stored. destruct (terminal (CrawlJob.status job)) eqn:Hstate.
  - rewrite (cancel_job_rejected job_id w job stored Hstate). cbn [snd].
    rewrite stored. now intros [= <-].
  - destruct (cancel_job_accepted job_id w job stored Hstate) as (_ & -> & _).
    now intros [= <-].
Qed.

(** C1 (evaluation of the code where the claim fails).  The claim says that
    [completed_at] is set exactly in the states completed, failed and
    cancelled, and that [cancel_job] sets it.  [cancel_job] assigns the
    state and nothing else: a job that is cancelled keeps the completion
    time it had, so that a job started through the API and then cancelled
    is in the state cancelled with no completion time. *)
Theorem completed_at_missing_after_cancel :
  (forall job_id w job,
     find_job job_id w = Some job ->
     terminal (CrawlJob.status job) = false ->
     fst (cancel_job job_id w) = Ok "Job cancelled successfully" /\
     lifecycle job_id (snd (cancel_job job_id w))
     = Some (CANCELLED, CrawlJob.started_at job, CrawlJob.completed_at job)) /\
  (let cancelled := cancel_job 1 Scenario.check_started in
   lifecycle 1 Scenario.check_started = Some (PENDING, None, None) /\
   fst cancelled = Ok "Job cancelled successfully" /\
   lifecycle 1 (snd cancelled) = Some (CANCELLED, None, None)) /\
  (let cancelled := cancel_job 1 Scenario.crawl_started in
   lifecycle 1 Scenario.crawl_started = Some (PENDING, None, None) /\
   fst cancelled = Ok "Job cancelled successfully" /\
   lifecycle 1 (snd cancelled) = Some (CANCELLED, None, None)).
Proof.
  split; [|split; vm_compute; repeat split].
  intros job_id w job stored Hlive.
  destruct (cancel_job_accepted job_id w job stored Hlive) as (Hok & Hrow & _).
  split; [exact Hok|]. unfold lifecycle. now rewrite Hrow.
Qed.

(** ** Cancellation followed by task runs *)

(** C2.  A cancellation request on a job that is completed, failed or
    cancelled is rejected with an error and leaves the whole store as it
    was; on a pending or running job it sets the state to cancelled,
    changing nothing else in the row, and revokes the attached task if
    there is one.  Once a job is cancelled no run of a task changes it,
    whichever tasks run afterwards and however often: the status writes of
    the executors never reach the row, because the commits that carry them
    raise. *)
Theorem cancel_job_then_report (job_id : Z) (w : World) (job : CrawlJob.t) :
  find_job job_id w = Some job ->
  (terminal (CrawlJob.status job) = true ->
   cancel_job job_id w = (HTTPException 400 "Job cannot be cancelled", w)) /\
  (terminal (CrawlJob.status job) = false ->
   fst (cancel_job job_id w) = Ok "Job cancelled successfully" /\
   find_job job_id (snd (cancel_job job_id w))
   = Some (CrawlJob.set_status CANCELLED job) /\
   revoked (snd (cancel_job job_id w))
   = (revoked w ++ match CrawlJob.celery_task_id job with
                   | Some task => [task]
                   | None => []
                   end)%list /\
   forall runs,
     find_job job_id (run_tasks runs (snd (cancel_job job_id w)))
     = Some (CrawlJob.set_status CANCELLED job)) /\
  (CrawlJob.status job = CANCELLED ->
   forall runs,
     find_job job_id (run_tasks runs w) = Some job /\
     status_of job_id (run_tasks runs w) = Some CANCELLED).
Proof.
  intros stored. split; [|split].
  - now apply cancel_job_rejected with (job := job).
  - intros Hlive.
    destruct (cancel_job_accepted job_id w job stored Hlive)
      as (Hok & Hrow & Hrevoked).
    repeat split; try assumption.
    intros runs. now rewrite run_tasks_store.
  - intros Hcancelled runs. rewrite run_tasks_store. unfold status_of.
    rewrite stored. cbn [option_map]. now rewrite Hcancelled.
Qed.

Lemma cancel_job_then_report_witness :
  (find_job 1 Scenario.failed_with_completion_time = Some Scenario.failed_job /\
   terminal (CrawlJob.status Scenario.failed_job) = true /\
   cancel_job 1 Scenario.failed_with_completion_time
   = (HTTPException 400 "Job cannot be cancelled",
      Scenario.failed_with_completion_time)) /\
  (find_job 1 Scenario.check_started <> None /\
   status_of 1 Scenario.check_started = Some PENDING /\
   status_of 1
     (run_tasks
        [(Scenario.dns_timeouts, CheckWebsites 1 (Some [1; 2]));
         (Scenario.broken_progress 10, CheckWebsites 1 (Some [1; 2]))]
        (snd (cancel_job 1 Scenario.check_started)))
   = Some CANCELLED).
Proof.
  split.
  - split; [reflexivity|]. split; [reflexivity|].
    destruct (cancel_job_then_report 1 Scenario.failed_with_completion_time
                Scenario.failed_job eq_refl) as (Hrejected & _).
    apply Hrejected. reflexivity.
  - destruct (find_job 1 Scenario.check_started) as [job|] eqn:stored;
      [|vm_compute in stored; discriminate stored].
    split; [discriminate|].
    assert (Hpending : CrawlJob.status job = PENDING)
      by (vm_compute in stored; now injection stored as <-).
    split; [unfold status_of; rewrite stored; cbn; now rewrite Hpending|].
    destruct (cancel_job_then_report 1 Scenario.check_started job stored)
      as (_ & Hlive & _).
    destruct Hlive as (_ & _ & _ & Hruns); [now rewrite Hpending|].
    unfold status_of. now rewrite Hruns.
Defined.
(** ** Retry *)

Lemma can_retry_spec (job : CrawlJob.t) :
  CrawlJob.can_retry job = true <->
  CrawlJob.status job = FAILED /\
  CrawlJob.retry_count job < CrawlJob.max_retries job.
Proof.
  unfold CrawlJob.can_retry. rewrite andb_true_iff, Z.ltb_lt.
  destruct (CrawlJob.status job); cbn; intuition discriminate.
Qed.

(** C3 (as the code has it).  A retry request is accepted exactly when the
    job is failed, [retry_count < max_retries] and the job is a Google Maps
    discovery or a website check, the two kinds the handler can dispatch;
    every rejected request leaves the store, the job row included, and the
    broker as they were. *)
Theorem retry_job_accepted_iff (job_id : Z) (w : World) (job : CrawlJob.t) :
  find_job job_id w = Some job ->
  (accepted (fst (retry_job job_id w)) = true <->
   CrawlJob.status job = FAILED /\
   CrawlJob.retry_count job < CrawlJob.max_retries job /\
   (CrawlJob.job_type job = GOOGLE_MAPS \/
    CrawlJob.job_type job = WEBSITE_CHECK)) /\
  (accepted (fst (retry_job job_id w)) = false ->
   snd (retry_job job_id w) = w).
Proof.
  intros stored. unfold retry_job. rewrite stored.
  pose proof (can_retry_spec job) as Hcan.
  destruct (CrawlJob.can_retry job); cbn [negb].
  - assert (Hyes : CrawlJob.status job = FAILED /\
                   CrawlJob.retry_count job < CrawlJob.max_retries job)
      by now apply Hcan.
    cbn [CrawlJob.job_type CrawlJob.set_error_message
         CrawlJob.set_retry_count CrawlJob.set_status].
    destruct (CrawlJob.job_type job); cbn; split;
      intuition (discriminate || auto).
  - cbn. split; [|reflexivity]. split; [discriminate|].
    intros (Hs & Hr & _). assert (false = true) by (apply Hcan; auto).
    discriminate.
Qed.

Lemma retry_job_accepted_iff_witness :
  find_job 1 Scenario.failed_with_completion_time = Some Scenario.failed_job /\
  accepted (fst (retry_job 1 Scenario.failed_with_completion_time)) = true /\
  find_job 1 Scenario.check_running = Some Scenario.running_job /\
  accepted (fst (retry_job 1 Scenario.check_running)) = false /\
  snd (retry_job 1 Scenario.check_running) = Scenario.check_running.
Proof.
  split; [reflexivity|]. split.
  - apply (retry_job_accepted_iff 1 Scenario.failed_with_completion_time
             Scenario.failed_job eq_refl).
    split; [reflexivity|]. split; [reflexivity|]. now left.
  - split; [reflexivity|]. split; [reflexivity|].
    apply (retry_job_accepted_iff 1 Scenario.check_running
             Scenario.running_job eq_refl).
    reflexivity.
Defined.

(** C3 (the claim fails).  A failed job with retries left is refused when
    its kind is not one the handler dispatches. *)
Lemma retry_refused_for_unsupported_kind :
  find_job 1 Scenario.linkedin_failed = Some Scenario.linkedin_job /\
  CrawlJob.status Scenario.linkedin_job = FAILED /\
  CrawlJob.retry_count Scenario.linkedin_job
  < CrawlJob.max_retries Scenario.linkedin_job /\
  retry_job 1 Scenario.linkedin_failed
  = (HTTPException 400 "Unsupported job type for retry",
     Scenario.linkedin_failed) /\
  ~ (accepted (fst (retry_job 1 Scenario.linkedin_failed)) = true <->
     CrawlJob.status Scenario.linkedin_job = FAILED /\
     CrawlJob.retry_count Scenario.linkedin_job
     < CrawlJob.max_retries Scenario.linkedin_job).
Proof.
  repeat split.
  intros [_ H]. cbn in H. assert (false = true) by (apply H; now split).
  discriminate.
Qed.

Lemma next_id_fresh {A} (key : A -> Z) (rows : list A) (r : A) :
  In r rows -> key r < next_id key rows.
Proof.
  unfold next_id. induction rows as [|x rows IH]; cbn [fold_right In].
  - contradiction.
  - intros [->|Hin]; [lia|]. specialize (IH Hin). lia.
Qed.

Lemma find_after_all_rejected {A} (f : A -> bool) (l : list A) (y : A) :
  (forall x, In x l -> f x = false) ->
  find f (l ++ [y]) = if f y then Some y else None.
Proof.
  induction l as [|x l IH]; cbn [app find]; intros Hrej; [reflexivity|].
  rewrite (Hrej x) by now left. apply IH. intros z Hz. apply Hrej. now right.
Qed.

(** The row [add_job] creates is the one found under its key. *)
Lemma find_job_add_job name job_type parameters location industry w :
  let '(job, w1) := add_job name job_type parameters location industry w in
  find_job (CrawlJob.id job) w1 = Some job.
Proof.
  unfold add_job, find_job. cbn [jobs set_jobs CrawlJob.id].
  rewrite find_after_all_rejected.
  - cbn [CrawlJob.id]. now rewrite Z.eqb_refl.
  - intros x Hx. apply Z.eqb_neq.
    pose proof (next_id_fresh CrawlJob.id (jobs w) x Hx). lia.
Qed.

(** A discovery job stores the arguments its task is first sent with. *)
Lemma start_google_maps_crawl_records_arguments (location : string)
    (industry : option string) (w : World) :
  let started := start_google_maps_crawl location industry w in
  let job_id := next_id CrawlJob.id (jobs w) in
  fst started = Ok (mkDispatched job_id (List.length (sent_tasks w)) "started") /\
  sent_tasks (snd started)
  = (sent_tasks w ++ [CrawlGoogleMaps job_id (Some location) industry])%list /\
  exists job,
    find_job job_id (snd started) = Some job /\
    CrawlJob.job_type job = GOOGLE_MAPS /\
    CrawlJob.status job = PENDING /\
    CrawlJob.target_location job = Some location /\
    CrawlJob.target_industry job = industry.
Proof.
  cbn zeta. unfold start_google_maps_crawl.
  set (parameters := Some _).
  pose proof (find_job_add_job ("Google Maps crawl - " ++ location)
                GOOGLE_MAPS parameters (Some location) industry w) as Hadd.
  destruct (add_job _ _ _ _ _ w) as [job w1] eqn:E.
  unfold add_job in E. injection E as Ejob Ew1.
  cbn [send_task]. cbn [fst snd CrawlJob.id CrawlJob.set_celery_task_id].
  assert (Hid : CrawlJob.id job = next_id CrawlJob.id (jobs w))
    by now rewrite <- Ejob.
  assert (Hsent : sent_tasks w1 = sent_tasks w) by now rewrite <- Ew1.
  rewrite Hid, Hsent. repeat split.
  eexists. split.
  - apply find_job_commit_job with (job := job); [|exact Hid].
    rewrite <- Hid. rewrite <- Hadd. now apply find_job_same_jobs.
  - rewrite <- Ejob. repeat split.
Qed.

(** C4 (as the code has it).  An accepted retry of a failed job with
    retries left sets the state back to pending, adds exactly one to
    [retry_count], clears [error_message], records the new task and sends
    that task: the discovery task with the stored location and industry for
    a Google Maps job, the check task with no id list for a website-check
    job.  It writes nothing else: [completed_at], [started_at] and the
    counters keep their stored values. *)
Theorem retry_job_effect (job_id : Z) (w : World) (job : CrawlJob.t)
    (call : TaskCall) :
  find_job job_id w = Some job ->
  CrawlJob.can_retry job = true ->
  CrawlJob.job_type job = GOOGLE_MAPS /\
    call = CrawlGoogleMaps job_id (CrawlJob.target_location job)
             (CrawlJob.target_industry job)
  \/ CrawlJob.job_type job = WEBSITE_CHECK /\ call = CheckWebsites job_id None ->
  let task := List.length (sent_tasks w) in
  let retried := retry_job job_id w in
  fst retried = Ok (mkDispatched job_id task "retried") /\
  sent_tasks (snd retried) = (sent_tasks w ++ [call])%list /\
  exists job',
    find_job job_id (snd retried) = Some job' /\
    CrawlJob.status job' = PENDING /\
    CrawlJob.retry_count job' = CrawlJob.retry_count job + 1 /\
    CrawlJob.error_message job' = None /\
    CrawlJob.celery_task_id job' = Some task /\
    CrawlJob.completed_at job' = CrawlJob.completed_at job /\
    CrawlJob.started_at job' = CrawlJob.started_at job /\
    counters job' = counters job /\
    CrawlJob.job_type job' = CrawlJob.job_type job /\
    CrawlJob.target_location job' = CrawlJob.target_location job /\
    CrawlJob.target_industry job' = CrawlJob.target_industry job.
Proof.
  intros stored Hcan Hcall. cbn zeta.
  pose proof (find_job_id _ _ _ stored) as Hid.
  unfold retry_job. rewrite stored, Hcan. cbn [negb].
  cbn [CrawlJob.job_type CrawlJob.set_error_message CrawlJob.set_retry_count
       CrawlJob.set_status CrawlJob.id CrawlJob.target_location
       CrawlJob.target_industry CrawlJob.retry_count].
  destruct Hcall as [[Hkind ->]|[Hkind ->]]; rewrite Hkind;
    cbn [send_task fst snd];
    (split; [cbn; now rewrite Hid|]);
    (split; [cbn; now rewrite Hid|]);
    eexists; (split;
      [ apply find_job_commit_job with (job := job); [exact stored|exact Hid]
      | cbn; rewrite ?Hkind; repeat split ]).
Qed.

Lemma retry_job_effect_witness :
  find_job 1 Scenario.failed_with_completion_time = Some Scenario.failed_job /\
  CrawlJob.can_retry Scenario.failed_job = true /\
  sent_tasks (snd (retry_job 1 Scenario.failed_with_completion_time))
  = [CrawlGoogleMaps 1 (Some "Utrecht") None;
     CrawlGoogleMaps 1 (Some "Utrecht") None].
Proof.
  split; [reflexivity|]. split; [reflexivity|].
  apply (retry_job_effect 1 Scenario.failed_with_completion_time
           Scenario.failed_job (CrawlGoogleMaps 1 (Some "Utrecht") None)
           eq_refl eq_refl).
  left. split; reflexivity.
Defined.

(** C4 (the claim fails).  The retried job keeps the completion time its
    row carried: the retry does not clear [completed_at]. *)
Lemma retry_keeps_completion_time :
  let retried := retry_job 1 Scenario.failed_with_completion_time in
  lifecycle 1 Scenario.failed_with_completion_time
  = Some (FAILED, Some 10, Some 20) /\
  accepted (fst retried) = true /\
  lifecycle 1 (snd retried) = Some (PENDING, Some 10, Some 20) /\
  option_map CrawlJob.completed_at (find_job 1 (snd retried)) <> Some None.
Proof. vm_compute. repeat split. discriminate. Qed.

(** ** The website probe *)

Section Probe.

Variable env : Env.

(** A domain that does not answer below 400 sends the loop on to the
    next one. *)
Lemma probe_domains_skip (domain : string) (rest : list string)
    (details : CheckDetails) :
  responds env domain = false ->
  exists details',
    probe_domains env (domain :: rest) details
    = probe_domains env rest details'.
Proof.
  unfold responds, http_status. cbn [probe_domains].
  destruct (resolve env domain) as [records| |e]; try (now eexists).
  destruct (fetch env _) as [s hs t|e]; try (now eexists).
  intros Hhigh. apply Z.ltb_ge in Hhigh.
  destruct (s =? 200) eqn:E200; [apply Z.eqb_eq in E200; lia|].
  destruct (s <? 400) eqn:E400; [apply Z.ltb_lt in E400; lia|].
  now eexists.
Qed.

Lemma probe_domains_first_responding (pre : list string) (domain : string)
    (post : list string) (s : Z) :
  (forall d, In d pre -> responds env d = false) ->
  http_status env domain = Some s -> s < 400 ->
  forall details,
  exists details',
    probe_domains env (pre ++ domain :: post) details
    = (true, if s =? 200 then 0.9 else 0.7, details')%Q /\
    cd_status_code details' = Some s.
Proof.
  intros Hpre Hdom Hlow. induction pre as [|d pre IH]; intros details.
  - cbn [app probe_domains]. unfold http_status in Hdom.
    destruct (resolve env domain) as [records| |e]; try discriminate.
    destruct (fetch env _) as [s' hs t|e]; try discriminate.
    injection Hdom as ->.
    destruct (s =? 200); [now eexists|].
    rewrite (proj2 (Z.ltb_lt _ _) Hlow). now eexists.
  - cbn [app].
    destruct (probe_domains_skip d (pre ++ domain :: post) details)
      as [details' ->]; [apply Hpre; now left|].
    apply IH. intros d' Hd'. apply Hpre. now right.
Qed.

Lemma probe_domains_none_responding (domains : list string) :
  (forall d, In d domains -> responds env d = false) ->
  forall details,
  exists details', probe_domains env domains details = (false, 0.0, details')%Q.
Proof.
  induction domains as [|d domains IH]; intros Hnone details.
  - now eexists.
  - destruct (probe_domains_skip d domains details) as [details' ->];
      [apply Hnone; now left|].
    apply IH. intros d' Hd'. apply Hnone. now right.
Qed.

(** No path through the probe sets the [is_error] entry. *)
Lemma probe_domains_is_error (domains : list string) :
  forall details,
  cd_is_error (snd (probe_domains env domains details)) = cd_is_error details.
Proof.
  induction domains as [|d domains IH]; intros details; [reflexivity|].
  cbn [probe_domains].
  destruct (resolve env d) as [records| |e]; [|apply IH|now rewrite IH].
  destruct (fetch env _) as [s hs t|e]; [|now rewrite IH].
  destruct (s =? 200); [reflexivity|].
  destruct (s <? 400); [reflexivity|]. now rewrite IH.
Qed.

End Probe.

(** C7.  The probe walks the candidate domains of a business in order and
    returns at the first one that resolves and whose fetch gives a status
    below 400, with confidence 0.9 for status 200 and 0.7 otherwise; when no
    candidate does, it returns a negative result with confidence 0.0.  For
    the business named Test Business 2 with testbusiness2.nl answering 200,
    the loop body of the executor adds a check row with
    [website_exists = true], confidence 0.9 and status 200, and assigns
    https://testbusiness2.nl to the [website_url] of the business. *)
Theorem check_business_website_first_hit (env : Env) (business : Business.t) :
  (forall pre domain post s,
     potential_domains business = (pre ++ domain :: post)%list ->
     (forall d, In d pre -> responds env d = false) ->
     http_status env domain = Some s -> s < 400 ->
     exists details,
       check_business_website env business
       = (true, if s =? 200 then 0.9 else 0.7, details)%Q /\
       cd_status_code details = Some s) /\
  ((forall d, In d (potential_domains business) -> responds env d = false) ->
   exists details,
     check_business_website env business = (false, 0.0, details)%Q) /\
  (Business.name business = "Test Business 2" ->
   probe_raises env business = None ->
   (exists records, resolve env "testbusiness2.nl" = DnsRecords records) ->
   (exists headers elapsed,
      fetch env "https://testbusiness2.nl" = HttpResponse 200 headers elapsed) ->
   forall i run,
   exists check business',
     check_one env i business run
     = mkCheckRun (dirty run ++ [business']) (added run ++ [check])
         (successful_checks run + 1) (failed_checks run) /\
     WebsiteCheck.business_id check = Business.id business /\
     WebsiteCheck.website_exists check = true /\
     WebsiteCheck.confidence_score check = 0.9%Q /\
     WebsiteCheck.status_code check = Some 200 /\
     Business.id business' = Business.id business /\
     Business.website_exists business' = Some true /\
     Business.website_confidence_score business' = Some 0.9%Q /\
     Business.website_url business' = Some "https://testbusiness2.nl").
Proof.
  split; [|split].
  - intros pre domain post s Hsplit Hpre Hdom Hlow.
    unfold check_business_website. rewrite Hsplit.
    now apply probe_domains_first_responding.
  - intros Hnone. now apply probe_domains_none_responding.
  - intros Hname Hquiet [records Hdns] (headers & elapsed & Hhttp) i run.
    unfold check_one. rewrite Hquiet.
    unfold check_business_website, potential_domains, business_name, nl_url.
    cbn [Business.name Business.set_website_exists
         Business.set_website_confidence_score Business.set_last_checked].
    rewrite Hname.
    change (Py.remove "-" (Py.remove " " (Py.lower "Test Business 2")) ++ ".nl")
      with "testbusiness2.nl".
    change ("https://" ++ Py.remove " " (Py.lower "Test Business 2") ++ ".nl")
      with "https://testbusiness2.nl".
    cbn [probe_domains]. rewrite Hdns.
    change ("https://" ++ "testbusiness2.nl") with "https://testbusiness2.nl".
    rewrite Hhttp. cbn [Z.eqb Pos.eqb].
    do 2 eexists. split; [reflexivity|]. cbn. repeat split.
Qed.

Lemma check_business_website_first_hit_witness :
  (http_status Scenario.test2_online "testbusiness2.nl" = Some 200 /\
   fst (check_business_website Scenario.test2_online Scenario.test2)
   = (true, 0.9%Q)) /\
  (responds Scenario.dns_timeouts "testbusiness2.nl" = false /\
   fst (check_business_website Scenario.dns_timeouts Scenario.test2)
   = (false, 0.0%Q)) /\
  (Business.name Scenario.test2 = "Test Business 2" /\
   exists check business',
     added (check_one Scenario.test2_online 0 Scenario.test2
              (mkCheckRun [] [] 0 0)) = [check] /\
     dirty (check_one Scenario.test2_online 0 Scenario.test2
              (mkCheckRun [] [] 0 0)) = [business'] /\
     WebsiteCheck.status_code check = Some 200 /\
     Business.website_url business' = Some "https://testbusiness2.nl").
Proof.
  split; [|split]; (split; [reflexivity|]).
  - destruct (check_business_website_first_hit Scenario.test2_online
                Scenario.test2) as (Hfirst & _).
    destruct (Hfirst [] "testbusiness2.nl"
                ["testbusiness2.com"; "testbusiness2.be"; "testbusiness2.de";
                 "testbusiness2.lu"] 200 eq_refl)
      as (details & Hrun & _).
    + intros d [].
    + reflexivity.
    + reflexivity.
    + now rewrite Hrun.
  - destruct (check_business_website_first_hit Scenario.dns_timeouts
                Scenario.test2) as (_ & Hnone & _).
    destruct Hnone as (details & Hrun).
    + apply Forall_forall. vm_compute. repeat constructor.
    + now rewrite Hrun.
  - destruct (check_business_website_first_hit Scenario.test2_online
                Scenario.test2) as (_ & _ & Hcase).
    destruct (Hcase eq_refl eq_refl
                (ex_intro _ ["192.0.2.2"] eq_refl)
                (ex_intro _ [] (ex_intro _ 0.25%Q eq_refl)) 0%nat
                (mkCheckRun [] [] 0 0))
      as (check & business' & Hrun & _ & _ & _ & Hstatus & _ & _ & _ & Hurl).
    exists check, business'. rewrite Hrun. cbn [added dirty app].
    repeat split; assumption.
Defined.

(** ** The website-check task *)

Lemma dns_errors_negative env business :
  dns_errors env business ->
  exists details,
    check_business_website env business = (false, 0.0%Q, details) /\
    cd_is_error details = false.
Proof.
  intros Herr.
  destruct (probe_domains_none_responding env (potential_domains business))
    with (details := initial_details) as [details Hrun].
  - intros d Hd. destruct (Herr d Hd) as [e He].
    unfold responds, http_status. now rewrite He.
  - exists details. split; [exact Hrun|].
    pose proof (probe_domains_is_error env (potential_domains business)
                  initial_details) as Hflag.
    unfold check_business_website in Hrun. now rewrite Hrun in Hflag.
Qed.

(** C5 (as the code has it).  For the business ids [1, 2], where the first
    candidate domain of business 1 answers below 400 and every candidate of
    business 2 raises a DNS error, the loop of the executor counts total 2,
    successful 2 and failed 0: the probe catches the DNS errors itself and
    returns a negative result, which the loop records as an ordinary check
    (not existing, confidence 0.0, not an error row) and counts as
    successful.  These are the numbers the task reports when it returns. *)
Theorem check_websites_counts_caught_dns_errors (env : Env) (w : World)
    (b1 b2 : Business.t) :
  select_businesses (Some [1; 2]) w = [b1; b2] ->
  responds env (business_name b1 ++ ".nl") = true ->
  dns_errors env b2 ->
  probe_raises env b1 = None -> probe_raises env b2 = None ->
  (forall current total, update_state env current total = None) ->
  fst (fst (check_business_website env b1)) = true /\
  (exists details,
     check_business_website env b2 = (false, 0.0%Q, details) /\
     cd_is_error details = false) /\
  (exists run c1 c2,
     check_body env (Some [1; 2]) w = (2, (run, None)) /\
     successful_checks run = 2 /\
     failed_checks run = 0 /\
     added run = [c1; c2] /\
     WebsiteCheck.website_exists c1 = true /\
     WebsiteCheck.website_exists c2 = false /\
     WebsiteCheck.confidence_score c2 = 0.0%Q /\
     WebsiteCheck.is_error c2 = false) /\
  (forall job_id,
     find_job job_id w = None ->
     fst (check_websites env job_id (Some [1; 2]) w) = CheckReport 2 0 2).
Proof.
  intros Hsel Hup Hdown Hq1 Hq2 Hprogress.
  destruct (dns_errors_negative env b2 Hdown) as (d2 & Hb2 & Hflag2).
  assert (Hfirst : exists d1, check_business_website env b1
                               = (true, snd (fst (check_business_website env b1)), d1)).
  { unfold responds in Hup.
    destruct (http_status env (business_name b1 ++ ".nl")) as [s|] eqn:Hs;
      [|discriminate].
    apply Z.ltb_lt in Hup.
    destruct (probe_domains_first_responding env [] (business_name b1 ++ ".nl")
                [business_name b1 ++ ".com"; business_name b1 ++ ".be";
                 business_name b1 ++ ".de"; business_name b1 ++ ".lu"] s)
      with (details := initial_details) as (d1 & Hrun & _);
      [intros d []|exact Hs|exact Hup|].
    exists d1. unfold check_business_website, potential_domains.
    cbn [app] in Hrun. now rewrite Hrun. }
  destruct Hfirst as [d1 Hb1].
  assert (Hbody :
    exists run c1 c2,
      check_body env (Some [1; 2]) w = (2, (run, None)) /\
      successful_checks run = 2 /\
      failed_checks run = 0 /\
      added run = [c1; c2] /\
      WebsiteCheck.website_exists c1 = true /\
      WebsiteCheck.website_exists c2 = false /\
      WebsiteCheck.confidence_score c2 = 0.0%Q /\
      WebsiteCheck.is_error c2 = false).
  { unfold check_body. rewrite Hsel. cbn [List.length Z.of_nat check_loop].
    rewrite !Hprogress. unfold check_one. rewrite Hq1, Hq2, Hb1, Hb2.
    cbn [fst snd successful_checks failed_checks added dirty app].
    do 3 eexists. split; [reflexivity|]. cbn. now rewrite Hflag2. }
  split; [now rewrite Hb1|]. split; [now exists d2|].
  split; [exact Hbody|].
  intros job_id missing.
  destruct Hbody as (run & c1 & c2 & Hrun & Hs & Hf & _).
  rewrite (check_websites_unstored env job_id (Some [1; 2]) w missing).
  rewrite Hrun. cbn [fst]. now rewrite Hs, Hf.
Qed.

Lemma check_websites_counts_caught_dns_errors_witness :
  select_businesses (Some [1; 2]) Scenario.catalogue
  = [Scenario.alpha; Scenario.test2] /\
  responds Scenario.dns_timeouts "alphabakery.nl" = true /\
  resolve Scenario.dns_timeouts "testbusiness2.nl"
  = DnsError "The DNS operation timed out." /\
  find_job 7 Scenario.catalogue = None /\
  fst (check_websites Scenario.dns_timeouts 7 (Some [1; 2]) Scenario.catalogue)
  = CheckReport 2 0 2.
Proof.
  repeat (split; [reflexivity|]).
  apply (check_websites_counts_caught_dns_errors Scenario.dns_timeouts
           Scenario.catalogue Scenario.alpha Scenario.test2);
    try reflexivity.
  unfold dns_errors. apply Forall_forall. vm_compute.
  repeat constructor; now eexists.
Defined.

(** C5 (the claim fails).  In the scenario of the claim the job does not
    end with successful 1 and failed 1: the run of its task raises at the
    first commit and leaves the job pending with all counters 0, and the
    loop of the executor, where it runs, counts successful 2 and
    failed 0. *)
Lemma dns_errors_are_not_counted_as_failed :
  let env := Scenario.dns_timeouts in
  let done := run_task env (CheckWebsites 1 (Some [1; 2]))
                Scenario.check_started in
  let run := fst (snd (check_body env (Some [1; 2]) Scenario.check_started)) in
  map Business.id (select_businesses (Some [1; 2]) Scenario.check_started)
  = [1; 2] /\
  fst (fst (check_business_website env Scenario.alpha)) = true /\
  Forall (fun d => resolve env d = DnsError "The DNS operation timed out.")
    (potential_domains Scenario.test2) /\
  fst done = TaskRaised PendingRollbackError /\
  status_of 1 (snd done) = Some PENDING /\
  option_map counters (find_job 1 (snd done)) = Some (0, 0, 0, 0) /\
  option_map counters (find_job 1 (snd done)) <> Some (2, 2, 1, 1) /\
  (successful_checks run, failed_checks run) = (2, 0) /\
  (successful_checks run, failed_checks run) <> (1, 1).
Proof.
  vm_compute. repeat split; try discriminate.
  repeat constructor.
Qed.
(** ** The cached website fields of a business *)



Lemma In_firstn {A} (n : nat) (l : list A) (x : A) :
  In x (firstn n l) -> In x l.
Proof.
  intros Hin. rewrite <- (firstn_skipn n l). apply in_or_app. now left.
Qed.

(** C10.  An explicit empty list of business ids is falsy, so the task
    takes the same branch as for an absent list: it checks the first
    businesses, at most 100, whose [website_exists] is null. *)
Theorem empty_id_list_selects_unchecked_batch (env : Env) (job_id : Z)
    (w : World) :
  select_businesses (Some []) w
  = firstn 100
      (filter (fun b => match Business.website_exists b with
                        | None => true
                        | Some _ => false
                        end) (businesses w)) /\
  select_businesses (Some []) w = select_businesses None w /\
  (List.length (select_businesses (Some []) w) <= 100)%nat /\
  Forall (fun b => Business.website_exists b = None /\ In b (businesses w))
    (select_businesses (Some []) w) /\
  check_websites env job_id (Some []) w = check_websites env job_id None w.
Proof.
  split; [reflexivity|]. split; [reflexivity|]. split; [|split].
  - unfold select_businesses. cbn [Py.truthy]. apply firstn_le_length.
  - unfold select_businesses. cbn [Py.truthy]. apply Forall_forall.
    intros b Hb. apply In_firstn in Hb. apply filter_In in Hb.
    destruct Hb as [Hin Hnull].
    split; [|exact Hin]. now destruct (Business.website_exists b).
  - reflexivity.
Qed.

Example empty_id_list_checks_businesses :
  fst (check_websites Scenario.dns_timeouts 7 (Some []) Scenario.catalogue)
  = CheckReport 2 0 2 /\
  fst (check_websites Scenario.dns_timeouts 7 (Some [2]) Scenario.catalogue)
  = CheckReport 1 0 1.
Proof. vm_compute. split; reflexivity. Qed.
(** ** Discovery *)

Lemma source_id_is_eq (source_id : option string) (b : Business.t) :
  source_id_is source_id b = true -> source_id = Business.source_id b.
Proof.
  unfold source_id_is.
  destruct source_id as [x|], (Business.source_id b) as [y|];
    try discriminate; [|reflexivity].
  intros H. apply String.eqb_eq in H. now subst.
Qed.

Lemma source_id_is_refl (b : Business.t) :
  source_id_is (Business.source_id b) b = true.
Proof.
  unfold source_id_is. destruct (Business.source_id b); [|reflexivity].
  apply String.eqb_refl.
Qed.

(** The lookup finds nothing exactly when no stored business has the source
    id of the candidate; the source is not compared. *)
Lemma unknown_spec (w : World) (candidate : Business.t) :
  unknown w candidate = true <->
  forall b, In b (businesses w) ->
            Business.source_id b <> Business.source_id candidate.
Proof.
  unfold unknown.
  destruct (find (source_id_is (Business.source_id candidate)) (businesses w))
    as [b|] eqn:Hfind.
  - apply find_some in Hfind as [Hin Hsame]. apply source_id_is_eq in Hsame.
    split; [discriminate|]. intros Hnone. now destruct (Hnone b Hin).
  - split; [|reflexivity]. intros _ b Hin Hsame.
    pose proof (find_none _ _ Hfind b Hin) as Hmiss.
    rewrite <- Hsame, source_id_is_refl in Hmiss. discriminate.
Qed.

(** With the lookups all made against the stored rows, the loop adds the
    candidates that are unknown and counts them. *)
Lemma crawl_loop_unknown (w : World) (candidates : list Business.t) :
  forall run,
    crawl_loop w candidates run
    = mkCrawlRun (new_businesses run ++ filter (unknown w) candidates)%list
        (businesses_found run
         + Z.of_nat (List.length (filter (unknown w) candidates))).
Proof.
  unfold crawl_loop.
  induction candidates as [|c candidates IH]; intros run; cbn [fold_left filter].
  - cbn. rewrite app_nil_r, Z.add_0_r. now destruct run.
  - rewrite IH. unfold crawl_one, unknown.
    destruct (find _ (businesses w)); [reflexivity|].
    cbn [new_businesses businesses_found List.length].
    rewrite <- app_assoc. cbn [app]. f_equal. lia.
Qed.

(** The two placeholder candidates never share a provenance. *)
Lemma example_businesses_distinct (job_id : Z) (location : string)
    (industry : option string) :
  NoDup (map provenance (example_businesses job_id location industry)).
Proof.
  cbn [example_businesses map provenance Business.source Business.source_id].
  constructor; [|constructor; [intros []|constructor]].
  intros [Heq|[]]. injection Heq as Heq. cbn [append] in Heq.
  discriminate Heq.
Qed.

Lemma NoDup_map_filter {A B} (g : A -> B) (p : A -> bool) (l : list A) :
  NoDup (map g l) -> NoDup (map g (filter p l)).
Proof.
  induction l as [|x l IH]; cbn [map filter]; [trivial|].
  intros Hnodup. inversion Hnodup as [|? ? Hnot Hrest]; subst.
  destruct (p x); [|now apply IH].
  cbn [map]. constructor; [|now apply IH].
  intros Hin. apply Hnot. apply in_map_iff in Hin as (y & Hy & Hin).
  apply filter_In in Hin as [Hin _]. apply in_map_iff. now exists y.
Qed.

(** C6.  Discovery never creates a second business for a provenance
    [(source, source_id)].  Before adding a candidate the executor looks
    for a stored business with the candidate's source id; the lookup
    compares the source id alone, so that it finds every business with the
    same pair, and also one with the same source id from another source.
    A candidate that is found is skipped: it is not added to the session
    and not counted as found, while it is counted as processed with the
    others (2 of 2).  The candidates added in a run never share a
    provenance.  And no run, whatever it adds to its session, leaves a new
    row in the businesses table. *)
Theorem crawl_google_maps_never_duplicates (env : Env) (job_id : Z)
    (location : string) (industry : option string) (w : World) :
  let candidates := example_businesses job_id location industry in
  let run := crawl_loop w candidates (mkCrawlRun [] 0) in
  (forall candidate,
     In candidate candidates ->
     (In candidate (new_businesses run) <->
      forall b, In b (businesses w) ->
                Business.source_id b <> Business.source_id candidate)) /\
  (forall candidate b,
     In candidate candidates -> In b (businesses w) ->
     provenance b = provenance candidate ->
     ~ In candidate (new_businesses run)) /\
  NoDup (map provenance (new_businesses run)) /\
  businesses_found run = Z.of_nat (List.length (new_businesses run)) /\
  crawl_body job_id (Some location) industry w = inl (2, run) /\
  (find_job job_id w = None ->
   fst (crawl_google_maps env job_id (Some location) industry w)
   = CrawlReport (businesses_found run) 2) /\
  (forall sent_with,
     businesses (snd (crawl_google_maps env job_id sent_with industry w))
     = businesses w).
Proof.
  cbn zeta. rewrite crawl_loop_unknown.
  cbn [new_businesses businesses_found app Z.add].
  assert (Hadded :
    forall candidate,
      In candidate (example_businesses job_id location industry) ->
      (In candidate
         (filter (unknown w) (example_businesses job_id location industry)) <->
       forall b, In b (businesses w) ->
                 Business.source_id b <> Business.source_id candidate)).
  { intros candidate Hin. rewrite filter_In, unknown_spec. tauto. }
  split; [exact Hadded|]. split; [|split; [|split; [|split; [|split]]]].
  - intros candidate b Hin Hb Hsame Hadd.
    apply (proj1 (Hadded candidate Hin) Hadd b Hb).
    unfold provenance in Hsame. congruence.
  - apply NoDup_map_filter. apply example_businesses_distinct.
  - reflexivity.
  - unfold crawl_body. now rewrite crawl_loop_unknown.
  - intros missing.
    rewrite (crawl_google_maps_unstored env job_id (Some location) industry w
               missing).
    unfold crawl_body. now rewrite crawl_loop_unknown.
  - intros sent_with. now rewrite crawl_google_maps_store.
Qed.

Lemma crawl_google_maps_never_duplicates_witness :
  let candidates := example_businesses 7 "Utrecht" None in
  let run := crawl_loop Scenario.found_before candidates (mkCrawlRun [] 0) in
  map Business.source_id (businesses Scenario.found_before)
  = [None; Some "gm_1_7"] /\
  map Business.source_id candidates = [Some "gm_1_7"; Some "gm_2_7"] /\
  map Business.source_id (new_businesses run) = [Some "gm_2_7"] /\
  fst (crawl_google_maps Scenario.dns_timeouts 7 (Some "Utrecht") None
         Scenario.found_before)
  = CrawlReport 1 2.
Proof.
  cbn zeta. split; [vm_compute; reflexivity|].
  split; [vm_compute; reflexivity|]. split; [vm_compute; reflexivity|].
  destruct (crawl_google_maps_never_duplicates Scenario.dns_timeouts 7
              "Utrecht" None Scenario.found_before)
    as (_ & _ & _ & _ & _ & Hreport & _).
  rewrite Hreport; [|reflexivity]. vm_compute. reflexivity.
Defined.

Lemma filter_all_rejected {A} (f : A -> bool) (l : list A) :
  (forall x, In x l -> f x = false) -> filter f l = [].
Proof.
  induction l as [|x l IH]; intros Hall; [reflexivity|].
  cbn [filter]. rewrite (Hall x) by now left.
  apply IH. intros y Hy. apply Hall. now right.
Qed.

(** * Further properties of the jobs API *)

Lemma find_job_update_other (job_id other : Z) (f : CrawlJob.t -> CrawlJob.t)
    (w : World) :
  other <> job_id ->
  (forall j, CrawlJob.id j = job_id -> CrawlJob.id (f j) = job_id) ->
  find_job other (update_job job_id f w) = find_job other w.
Proof.
  intros Hne Hid. unfold find_job, update_job. cbn [jobs set_jobs].
  induction (jobs w) as [|j rows IH]; cbn [map find]; [reflexivity|].
  destruct (CrawlJob.id j =? job_id) eqn:E.
  - apply Z.eqb_eq in E. pose proof (Hid j E) as E'.
    replace (CrawlJob.id (f j) =? other) with false
      by (symmetry; apply Z.eqb_neq; lia).
    replace (CrawlJob.id j =? other) with false
      by (symmetry; apply Z.eqb_neq; lia).
    exact IH.
  - destruct (CrawlJob.id j =? other); [reflexivity|exact IH].
Qed.

Lemma find_job_commit_other (other : Z) (job : CrawlJob.t) (w : World) :
  other <> CrawlJob.id job ->
  find_job other (commit_job job w) = find_job other w.
Proof.
  intros Hne. unfold commit_job. now apply find_job_update_other.
Qed.

Lemma find_job_none (job_id : Z) (w : World) :
  find_job job_id w = None <->
  (forall j, In j (jobs w) -> CrawlJob.id j <> job_id).
Proof.
  unfold find_job. split.
  - intros Hnone j Hj. apply Z.eqb_neq. exact (find_none _ _ Hnone j Hj).
  - intros Hall. destruct (find _ (jobs w)) as [j|] eqn:Hfind; [|reflexivity].
    apply find_some in Hfind as [Hin Hid]. apply Z.eqb_eq in Hid.
    now destruct (Hall j Hin).
Qed.

Lemma find_app_first {A} (f : A -> bool) (l l' : list A) (x : A) :
  find f l = Some x -> find f (l ++ l') = Some x.
Proof.
  induction l as [|y l IH]; cbn [app find]; [discriminate|].
  destruct (f y); [trivial|exact IH].
Qed.

(** The store after a new job row was added, its task sent and the task id
    written back, as both start endpoints do. *)
Lemma new_job_dispatched (job : CrawlJob.t) (call : TaskCall) (w : World) :
  CrawlJob.id job = next_id CrawlJob.id (jobs w) ->
  let task := List.length (sent_tasks w) in
  let job' := CrawlJob.set_celery_task_id (Some task) job in
  let w' :=
    commit_job job'
      (set_sent_tasks (sent_tasks w ++ [call])%list
         (set_jobs (jobs w ++ [job])%list w)) in
  find_job (CrawlJob.id job) w' = Some job' /\
  nth_error (sent_tasks w') task = Some call /\
  (forall other j,
     find_job other w = Some j ->
     other <> CrawlJob.id job /\ find_job other w' = Some j).
Proof.
  intros Hid. cbn zeta. split; [|split].
  - apply find_job_commit_job with (job := job); [|reflexivity].
    unfold find_job. cbn [jobs set_jobs set_sent_tasks].
    rewrite find_after_all_rejected; [now rewrite Z.eqb_refl|].
    intros x Hx. apply Z.eqb_neq.
    pose proof (next_id_fresh CrawlJob.id (jobs w) x Hx). lia.
  - cbn [sent_tasks commit_job update_job set_jobs set_sent_tasks].
    rewrite nth_error_app2 by lia. now rewrite Nat.sub_diag.
  - intros other j Hother.
    assert (Hne : other <> CrawlJob.id job).
    { unfold find_job in Hother. apply find_some in Hother as [Hin Ho].
      apply Z.eqb_eq in Ho.
      pose proof (next_id_fresh CrawlJob.id (jobs w) j Hin). lia. }
    split; [exact Hne|].
    rewrite find_job_commit_other by exact Hne.
    unfold find_job. cbn [jobs set_jobs set_sent_tasks].
    now apply find_app_first.
Qed.

Lemma start_google_maps_crawl_world (location : string)
    (industry : option string) (w : World) :
  exists job,
    CrawlJob.id job = next_id CrawlJob.id (jobs w) /\
    CrawlJob.status job = PENDING /\
    CrawlJob.job_type job = GOOGLE_MAPS /\
    CrawlJob.target_location job = Some location /\
    CrawlJob.target_industry job = industry /\
    CrawlJob.retry_count job = 0 /\
    start_google_maps_crawl location industry w
    = (Ok (mkDispatched (CrawlJob.id job) (List.length (sent_tasks w))
             "started"),
       commit_job
         (CrawlJob.set_celery_task_id (Some (List.length (sent_tasks w))) job)
         (set_sent_tasks
            (sent_tasks w
             ++ [CrawlGoogleMaps (CrawlJob.id job) (Some location) industry])%list
            (set_jobs (jobs w ++ [job])%list w))).
Proof.
  eexists (CrawlJob.mk (next_id CrawlJob.id (jobs w)) _ GOOGLE_MAPS PENDING
             _ (Some location) industry 0 0 0 0 None 0 3 None None None).
  repeat split.
Qed.

Lemma start_website_check_world (business_ids : option (list Z)) (w : World) :
  exists job,
    CrawlJob.id job = next_id CrawlJob.id (jobs w) /\
    CrawlJob.status job = PENDING /\
    CrawlJob.job_type job = WEBSITE_CHECK /\
    CrawlJob.retry_count job = 0 /\
    start_website_check business_ids w
    = (Ok (mkDispatched (CrawlJob.id job) (List.length (sent_tasks w))
             "started"),
       commit_job
         (CrawlJob.set_celery_task_id (Some (List.length (sent_tasks w))) job)
         (set_sent_tasks
            (sent_tasks w ++ [CheckWebsites (CrawlJob.id job) business_ids])%list
            (set_jobs (jobs w ++ [job])%list w))).
Proof.
  eexists (CrawlJob.mk (next_id CrawlJob.id (jobs w)) _ WEBSITE_CHECK PENDING
             _ None None 0 0 0 0 None 0 3 None None None).
  repeat split.
Qed.

(** The three ways a retry request on a stored job ends. *)
Lemma retry_job_cases (job_id : Z) (w : World) (job : CrawlJob.t) :
  find_job job_id w = Some job ->
  (CrawlJob.can_retry job = false /\
   retry_job job_id w = (HTTPException 400 "Job cannot be retried", w)) \/
  (CrawlJob.can_retry job = true /\
   CrawlJob.job_type job <> GOOGLE_MAPS /\
   CrawlJob.job_type job <> WEBSITE_CHECK /\
   retry_job job_id w = (HTTPException 400 "Unsupported job type for retry", w)) \/
  (CrawlJob.can_retry job = true /\
   (CrawlJob.job_type job = GOOGLE_MAPS \/
    CrawlJob.job_type job = WEBSITE_CHECK) /\
   exists call,
     task_job call = job_id /\
     retry_job job_id w
     = (Ok (mkDispatched job_id (List.length (sent_tasks w)) "retried"),
        commit_job (retried (List.length (sent_tasks w)) job)
          (set_sent_tasks (sent_tasks w ++ [call])%list w))).
Proof.
  intros stored. pose proof (find_job_id _ _ _ stored) as Hid. subst job_id.
  unfold retry_job. rewrite stored.
  destruct (CrawlJob.can_retry job); cbn [negb]; [|now left].
  right.
  cbn [CrawlJob.job_type CrawlJob.set_error_message CrawlJob.set_retry_count
       CrawlJob.set_status].
  destruct (CrawlJob.job_type job) eqn:Hkind;
    try (left; repeat split; discriminate).
  - right. split; [reflexivity|]. split; [now left|].
    eexists. split; [|reflexivity]. reflexivity.
  - right. split; [reflexivity|]. split; [now right|].
    eexists. split; [|reflexivity]. reflexivity.
Qed.

(** The two ways a cancellation request on a stored job ends. *)
Lemma cancel_job_cases (job_id : Z) (w : World) (job : CrawlJob.t) :
  find_job job_id w = Some job ->
  (CrawlJob.is_completed job = true /\
   cancel_job job_id w = (HTTPException 400 "Job cannot be cancelled", w)) \/
  (CrawlJob.is_completed job = false /\
   cancel_job job_id w
   = (Ok "Job cancelled successfully",
      commit_job (CrawlJob.set_status CANCELLED job)
        (set_revoked
           (revoked w ++ match CrawlJob.celery_task_id job with
                         | Some task => [task]
                         | None => []
                         end)%list w))).
Proof.
  intros stored. unfold cancel_job, CrawlJob.is_completed. rewrite stored.
  destruct (CrawlJob.status job); try (now left); right;
    (split; [reflexivity|]);
    destruct (CrawlJob.celery_task_id job); try reflexivity;
    rewrite app_nil_r; now destruct w.
Qed.

(** X1.  The job id a start endpoint returns can be fetched at once: the
    row is pending, is of the started kind, carries the returned task id,
    and that task id is the handle of the task that was sent for this very
    job with the arguments of the request. *)
Theorem started_job_is_found (w : World) :
  (forall location industry,
     let started := start_google_maps_crawl location industry w in
     exists d job,
       fst started = Ok d /\
       get_job (d_job_id d) (snd started) = Ok job /\
       CrawlJob.status job = PENDING /\
       CrawlJob.job_type job = GOOGLE_MAPS /\
       CrawlJob.celery_task_id job = Some (d_task_id d) /\
       nth_error (sent_tasks (snd started)) (d_task_id d)
       = Some (CrawlGoogleMaps (d_job_id d) (Some location) industry)) /\
  (forall business_ids,
     let started := start_website_check business_ids w in
     exists d job,
       fst started = Ok d /\
       get_job (d_job_id d) (snd started) = Ok job /\
       CrawlJob.status job = PENDING /\
       CrawlJob.job_type job = WEBSITE_CHECK /\
       CrawlJob.celery_task_id job = Some (d_task_id d) /\
       nth_error (sent_tasks (snd started)) (d_task_id d)
       = Some (CheckWebsites (d_job_id d) business_ids)).
Proof.
  split.
  - intros location industry. cbn zeta.
    destruct (start_google_maps_crawl_world location industry w)
      as (job & Hid & Hstatus & Hkind & _ & _ & _ & ->).
    destruct (new_job_dispatched job
                (CrawlGoogleMaps (CrawlJob.id job) (Some location) industry)
                w Hid) as (Hfound & Hsent & _).
    exists (mkDispatched (CrawlJob.id job) (List.length (sent_tasks w))
              "started"),
      (CrawlJob.set_celery_task_id (Some (List.length (sent_tasks w))) job).
    cbn [fst snd d_job_id d_task_id]. split; [reflexivity|].
    unfold get_job. rewrite Hfound. split; [reflexivity|].
    cbn [CrawlJob.status CrawlJob.job_type CrawlJob.celery_task_id
         CrawlJob.set_celery_task_id].
    repeat split; assumption.
  - intros business_ids. cbn zeta.
    destruct (start_website_check_world business_ids w)
      as (job & Hid & Hstatus & Hkind & _ & ->).
    destruct (new_job_dispatched job
                (CheckWebsites (CrawlJob.id job) business_ids) w Hid)
      as (Hfound & Hsent & _).
    exists (mkDispatched (CrawlJob.id job) (List.length (sent_tasks w))
              "started"),
      (CrawlJob.set_celery_task_id (Some (List.length (sent_tasks w))) job).
    cbn [fst snd d_job_id d_task_id]. split; [reflexivity|].
    unfold get_job. rewrite Hfound. split; [reflexivity|].
    cbn [CrawlJob.status CrawlJob.job_type CrawlJob.celery_task_id
         CrawlJob.set_celery_task_id].
    repeat split; assumption.
Qed.

(** X2.  Starting a job gives it an id no stored job has and leaves every
    stored job as it was; the businesses, the checks and the revocations
    are not touched. *)
Theorem start_keeps_other_jobs (w : World) (other : Z) (j : CrawlJob.t) :
  find_job other w = Some j ->
  (forall location industry,
     let started := start_google_maps_crawl location industry w in
     (exists d, fst started = Ok d /\ d_job_id d <> other) /\
     find_job other (snd started) = Some j /\
     businesses (snd started) = businesses w /\
     website_checks (snd started) = website_checks w /\
     revoked (snd started) = revoked w) /\
  (forall business_ids,
     let started := start_website_check business_ids w in
     (exists d, fst started = Ok d /\ d_job_id d <> other) /\
     find_job other (snd started) = Some j /\
     businesses (snd started) = businesses w /\
     website_checks (snd started) = website_checks w /\
     revoked (snd started) = revoked w).
Proof.
  intros stored. split.
  - intros location industry. cbn zeta.
    destruct (start_google_maps_crawl_world location industry w)
      as (job & Hid & _ & _ & _ & _ & _ & ->).
    destruct (new_job_dispatched job
                (CrawlGoogleMaps (CrawlJob.id job) (Some location) industry)
                w Hid) as (_ & _ & Hframe).
    destruct (Hframe other j stored) as [Hne Hkept].
    cbn [fst snd]. split; [eexists; split; [reflexivity|]; cbn; congruence|].
    split; [exact Hkept|]. repeat split.
  - intros business_ids. cbn zeta.
    destruct (start_website_check_world business_ids w)
      as (job & Hid & _ & _ & _ & ->).
    destruct (new_job_dispatched job
                (CheckWebsites (CrawlJob.id job) business_ids) w Hid)
      as (_ & _ & Hframe).
    destruct (Hframe other j stored) as [Hne Hkept].
    cbn [fst snd]. split; [eexists; split; [reflexivity|]; cbn; congruence|].
    split; [exact Hkept|]. repeat split.
Qed.

Lemma start_keeps_other_jobs_witness :
  find_job 1 Scenario.check_running = Some Scenario.running_job /\
  find_job 1 (snd (start_website_check None Scenario.check_running))
  = Some Scenario.running_job /\
  find_job 1 (snd (start_google_maps_crawl "Utrecht" None
                     Scenario.check_running))
  = Some Scenario.running_job.
Proof.
  split; [reflexivity|].
  destruct (start_keeps_other_jobs Scenario.check_running 1
              Scenario.running_job eq_refl) as (Hcrawl & Hcheck).
  split.
  - now destruct (Hcheck None) as (_ & Hkept & _).
  - now destruct (Hcrawl "Utrecht" None) as (_ & Hkept & _).
Defined.

(** X3.  For an id that no stored job has, [get_job], [cancel_job] and
    [retry_job] all answer 404 and the store, the broker included, is left
    as it was. *)
Theorem unknown_job_is_not_found (job_id : Z) (w : World) :
  (forall j, In j (jobs w) -> CrawlJob.id j <> job_id) ->
  get_job job_id w = HTTPException 404 "Job not found" /\
  cancel_job job_id w = (HTTPException 404 "Job not found", w) /\
  retry_job job_id w = (HTTPException 404 "Job not found", w).
Proof.
  intros Hunknown. apply find_job_none in Hunknown.
  unfold get_job, cancel_job, retry_job. now rewrite Hunknown.
Qed.

Lemma unknown_job_is_not_found_witness :
  cancel_job 7 Scenario.check_running
  = (HTTPException 404 "Job not found", Scenario.check_running).
Proof.
  apply (unknown_job_is_not_found 7 Scenario.check_running).
  intros j [<-|[]]. discriminate.
Defined.

(** X4.  A cancellation or a retry of one job changes no other job: the row
    of every other id reads as before, as do the businesses and the checks;
    a cancellation sends no task and a retry revokes none. *)
Theorem cancel_and_retry_touch_one_job (job_id other : Z) (w : World) :
  other <> job_id ->
  let cancelled := snd (cancel_job job_id w) in
  let retried := snd (retry_job job_id w) in
  find_job other cancelled = find_job other w /\
  find_job other retried = find_job other w /\
  businesses cancelled = businesses w /\
  businesses retried = businesses w /\
  website_checks cancelled = website_checks w /\
  website_checks retried = website_checks w /\
  sent_tasks cancelled = sent_tasks w /\
  revoked retried = revoked w.
Proof.
  intros Hne. cbn zeta.
  destruct (find_job job_id w) as [job|] eqn:stored.
  - pose proof (find_job_id _ _ _ stored) as Hid.
    assert (Hcancel : find_job other (snd (cancel_job job_id w))
                      = find_job other w /\
                      businesses (snd (cancel_job job_id w)) = businesses w /\
                      website_checks (snd (cancel_job job_id w))
                      = website_checks w /\
                      sent_tasks (snd (cancel_job job_id w)) = sent_tasks w).
    { destruct (cancel_job_cases job_id w job stored) as [[_ ->]|[_ ->]];
        cbn [snd]; [repeat split|].
      split; [|repeat split].
      rewrite find_job_commit_other by (cbn; congruence). reflexivity. }
    assert (Hretry : find_job other (snd (retry_job job_id w))
                     = find_job other w /\
                     businesses (snd (retry_job job_id w)) = businesses w /\
                     website_checks (snd (retry_job job_id w))
                     = website_checks w /\
                     revoked (snd (retry_job job_id w)) = revoked w).
    { destruct (retry_job_cases job_id w job stored)
        as [[_ ->]|[(_ & _ & _ & ->)|(_ & _ & call & _ & ->)]];
        cbn [snd]; [repeat split|repeat split|].
      split; [|repeat split].
      rewrite find_job_commit_other by (cbn; congruence). reflexivity. }
    tauto.
  - unfold cancel_job, retry_job. rewrite stored. cbn [snd]. repeat split.
Qed.

Lemma cancel_and_retry_touch_one_job_witness :
  find_job 1 (snd (cancel_job 2 Scenario.check_running))
  = find_job 1 Scenario.check_running.
Proof.
  apply (cancel_and_retry_touch_one_job 2 1 Scenario.check_running).
  discriminate.
Defined.

(** X5.  [cancel_job] accepts a stored job exactly when its [is_completed]
    property is false, and [retry_job] only accepts jobs whose
    [is_completed] is true: in no state can a job be both cancelled and
    retried. *)
Theorem cancel_and_retry_exclude_each_other (job_id : Z) (w : World)
    (job : CrawlJob.t) :
  find_job job_id w = Some job ->
  accepted (fst (cancel_job job_id w)) = negb (CrawlJob.is_completed job) /\
  (accepted (fst (retry_job job_id w)) = true ->
   CrawlJob.is_completed job = true) /\
  (accepted (fst (cancel_job job_id w)) = true ->
   accepted (fst (retry_job job_id w)) = false).
Proof.
  intros stored.
  assert (Hretry : accepted (fst (retry_job job_id w)) = true ->
                   CrawlJob.is_completed job = true).
  { destruct (retry_job_cases job_id w job stored)
      as [[_ ->]|[(_ & _ & _ & ->)|(Hcan & _)]]; try discriminate.
    intros _. apply can_retry_spec in Hcan as [Hfailed _].
    unfold CrawlJob.is_completed. now rewrite Hfailed. }
  destruct (cancel_job_cases job_id w job stored) as [[Hdone ->]|[Hlive ->]];
    rewrite ?Hdone, ?Hlive; cbn [fst accepted negb].
  - split; [reflexivity|]. split; [intros _; reflexivity|discriminate].
  - split; [reflexivity|]. split; [intros H; specialize (Hretry H); congruence|].
    intros _.
    destruct (accepted (fst (retry_job job_id w))); [|reflexivity].
    specialize (Hretry eq_refl). congruence.
Qed.

Lemma cancel_and_retry_exclude_each_other_witness :
  find_job 1 Scenario.check_running = Some Scenario.running_job /\
  accepted (fst (cancel_job 1 Scenario.check_running)) = true /\
  accepted (fst (retry_job 1 Scenario.check_running)) = false.
Proof.
  split; [reflexivity|]. split; [reflexivity|].
  apply (cancel_and_retry_exclude_each_other 1 Scenario.check_running
           Scenario.running_job eq_refl).
  reflexivity.
Defined.

(** X6.  Retrying never takes [retry_count] past [max_retries]: a job whose
    count is within the limit is still within it after any retry request,
    accepted or not, [max_retries] itself is never changed, and once the
    count has reached the limit every retry request is refused with
    "Job cannot be retried". *)
Theorem retry_count_stays_within_max_retries (job_id : Z) (w : World)
    (job : CrawlJob.t) :
  find_job job_id w = Some job ->
  (CrawlJob.retry_count job <= CrawlJob.max_retries job ->
   forall job',
     find_job job_id (snd (retry_job job_id w)) = Some job' ->
     CrawlJob.retry_count job <= CrawlJob.retry_count job' /\
     CrawlJob.retry_count job' <= CrawlJob.max_retries job' /\
     CrawlJob.max_retries job' = CrawlJob.max_retries job) /\
  (CrawlJob.max_retries job <= CrawlJob.retry_count job ->
   retry_job job_id w = (HTTPException 400 "Job cannot be retried", w)).
Proof.
  intros stored. pose proof (find_job_id _ _ _ stored) as Hid. split.
  - intros Hwithin job'.
    destruct (retry_job_cases job_id w job stored)
      as [[_ ->]|[(_ & _ & _ & ->)|(Hcan & _ & call & _ & ->)]]; cbn [snd].
    + rewrite stored. intros [= <-]. lia.
    + rewrite stored. intros [= <-]. lia.
    + erewrite find_job_commit_job; [|exact stored|exact Hid].
      intros [= <-]. apply can_retry_spec in Hcan as [_ Hleft].
      cbn. lia.
  - intros Hspent.
    destruct (retry_job_cases job_id w job stored)
      as [[_ ->]|[(Hcan & _)|(Hcan & _)]]; [reflexivity| |];
      apply can_retry_spec in Hcan as [_ Hleft]; lia.
Qed.

Lemma retry_count_stays_within_max_retries_witness :
  find_job 1 Scenario.failed_with_completion_time = Some Scenario.failed_job /\
  CrawlJob.retry_count Scenario.failed_job
  <= CrawlJob.max_retries Scenario.failed_job /\
  exists job',
    find_job 1 (snd (retry_job 1 Scenario.failed_with_completion_time))
    = Some job' /\
    CrawlJob.retry_count job' <= CrawlJob.max_retries job'.
Proof.
  split; [reflexivity|]. split; [discriminate|].
  eexists. split; [vm_compute; reflexivity|].
  destruct (retry_count_stays_within_max_retries 1
              Scenario.failed_with_completion_time Scenario.failed_job eq_refl)
    as (Hwithin & _).
  apply (Hwithin ltac:(discriminate)). vm_compute. reflexivity.
Defined.

(** X7.  A cancelled job is final for the API: the accepted cancellation
    shows at once in [get_job], a second cancellation is refused, and so is
    a retry, each without changing the store. *)
Theorem cancelled_job_is_final (job_id : Z) (w : World) (job : CrawlJob.t) :
  find_job job_id w = Some job ->
  accepted (fst (cancel_job job_id w)) = true ->
  let w' := snd (cancel_job job_id w) in
  get_job job_id w' = Ok (CrawlJob.set_status CANCELLED job) /\
  cancel_job job_id w' = (HTTPException 400 "Job cannot be cancelled", w') /\
  retry_job job_id w' = (HTTPException 400 "Job cannot be retried", w').
Proof.
  intros stored Hok. cbn zeta.
  pose proof (find_job_id _ _ _ stored) as Hid.
  destruct (cancel_job_cases job_id w job stored) as [[_ Hno]|[_ Hyes]];
    [rewrite Hno in Hok; discriminate|].
  rewrite Hyes. cbn [snd].
  set (w' := commit_job _ _).
  assert (stored' : find_job job_id w'
                    = Some (CrawlJob.set_status CANCELLED job))
    by (apply find_job_commit_job with (job := job); assumption).
  unfold get_job. rewrite stored'. split; [reflexivity|]. split.
  - now destruct (cancel_job_cases job_id w' _ stored') as [[_ ->]|[Hlive _]].
  - now destruct (retry_job_cases job_id w' _ stored')
      as [[_ ->]|[(Hcan & _)|(Hcan & _)]].
Qed.

Lemma cancelled_job_is_final_witness :
  find_job 1 Scenario.check_running = Some Scenario.running_job /\
  accepted (fst (cancel_job 1 Scenario.check_running)) = true /\
  accepted (fst (cancel_job 1 (snd (cancel_job 1 Scenario.check_running))))
  = false.
Proof.
  split; [reflexivity|]. split; [reflexivity|].
  destruct (cancelled_job_is_final 1 Scenario.check_running
              Scenario.running_job eq_refl eq_refl) as (_ & Hagain & _).
  now rewrite Hagain.
Defined.

(** X8.  After an accepted retry the job can be cancelled, and the
    cancellation revokes the task the retry has just sent, not an earlier
    one: the revoked id is the handle of the last task of the queue, which
    works for this job. *)
Theorem cancel_after_retry_revokes_new_task (job_id : Z) (w : World)
    (job : CrawlJob.t) :
  find_job job_id w = Some job ->
  accepted (fst (retry_job job_id w)) = true ->
  let new_task := List.length (sent_tasks w) in
  let cancelled := cancel_job job_id (snd (retry_job job_id w)) in
  fst cancelled = Ok "Job cancelled successfully" /\
  revoked (snd cancelled) = (revoked w ++ [new_task])%list /\
  (exists call,
     sent_tasks (snd cancelled) = (sent_tasks w ++ [call])%list /\
     task_job call = job_id) /\
  option_map CrawlJob.status (find_job job_id (snd cancelled))
  = Some CANCELLED.
Proof.
  intros stored Hok. cbn zeta.
  pose proof (find_job_id _ _ _ stored) as Hid.
  destruct (retry_job_cases job_id w job stored)
    as [[_ Hno]|[(_ & _ & _ & Hno)|(_ & _ & call & Hcall & Hyes)]];
    try (rewrite Hno in Hok; discriminate).
  rewrite Hyes. cbn [snd].
  set (w' := commit_job _ _).
  assert (stored' : find_job job_id w'
                    = Some (retried (List.length (sent_tasks w)) job))
    by (apply find_job_commit_job with (job := job); assumption).
  destruct (cancel_job_cases job_id w' _ stored') as [[Hdone _]|[_ ->]];
    [discriminate|].
  cbn [fst snd]. split; [reflexivity|]. split; [reflexivity|]. split.
  - exists call. split; [reflexivity|exact Hcall].
  - erewrite find_job_commit_job; [reflexivity| |exact Hid].
    rewrite <- stored'. now apply find_job_same_jobs.
Qed.

Lemma cancel_after_retry_revokes_new_task_witness :
  find_job 1 Scenario.failed_with_completion_time = Some Scenario.failed_job /\
  accepted (fst (retry_job 1 Scenario.failed_with_completion_time)) = true /\
  revoked
    (snd (cancel_job 1 (snd (retry_job 1 Scenario.failed_with_completion_time))))
  = [1%nat].
Proof.
  split; [reflexivity|]. split; [reflexivity|].
  now destruct (cancel_after_retry_revokes_new_task 1
                  Scenario.failed_with_completion_time Scenario.failed_job
                  eq_refl eq_refl) as (_ & -> & _).
Defined.

Lemma firstn_pages {A} (k k' : nat) (l : list A) :
  (firstn k l ++ firstn k' (skipn k l))%list = firstn (k + k') l.
Proof.
  revert l. induction k as [|k IH]; intros l; [reflexivity|].
  destruct l as [|x l]; cbn [firstn skipn app Nat.add].
  - now rewrite firstn_nil.
  - now rewrite IH.
Qed.

Lemma In_skipn {A} (n : nat) (l : list A) (x : A) :
  In x (skipn n l) -> In x l.
Proof.
  intros Hin. rewrite <- (firstn_skipn n l). apply in_or_app. now right.
Qed.

Lemma JobStatus_eqb_eq (a b : JobStatus) : JobStatus_eqb a b = true <-> a = b.
Proof. destruct a, b; cbn; split; congruence. Qed.

Lemma JobType_eqb_eq (a b : JobType) : JobType_eqb a b = true <-> a = b.
Proof. destruct a, b; cbn; split; congruence. Qed.

(** X9.  The pages of [get_jobs] fit together: the page of [limit] jobs
    from [skip] followed by the next page is the double page, so paging
    neither repeats nor loses a job.  A page holds at most [limit] jobs,
    every one of them a stored job that has the status and the kind asked
    for. *)
Theorem get_jobs_pages (skip limit limit' : nat) (status : option JobStatus)
    (job_type : option JobType) (w : World) :
  (get_jobs skip limit status job_type w
   ++ get_jobs (skip + limit) limit' status job_type w)%list
  = get_jobs skip (limit + limit') status job_type w /\
  (List.length (get_jobs skip limit status job_type w) <= limit)%nat /\
  (forall j,
     In j (get_jobs skip limit status job_type w) ->
     In j (jobs w) /\
     (forall s, status = Some s -> CrawlJob.status j = s) /\
     (forall t, job_type = Some t -> CrawlJob.job_type j = t)).
Proof.
  unfold get_jobs. cbn zeta. split; [|split].
  - rewrite (Nat.add_comm skip limit), <- skipn_skipn. apply firstn_pages.
  - apply firstn_le_length.
  - intros j Hj. apply In_firstn, In_skipn in Hj.
    destruct job_type as [t|], status as [s|];
      repeat match goal with
        | H : In _ (filter _ _) |- _ => apply filter_In in H as [H ?]
        end;
      (split; [assumption|]); split; intros x [= <-];
      first [now apply JobStatus_eqb_eq | now apply JobType_eqb_eq].
Qed.

(** * Further properties of the executors *)

(** One business: one check row is added and one of the two counters
    goes up by one. *)
Lemma check_one_step (env : Env) (i : nat) (business : Business.t)
    (run : CheckRun) :
  let raises :=
    match probe_raises env business with Some _ => 1 | None => 0 end in
  exists check,
    added (check_one env i business run) = (added run ++ [check])%list /\
    WebsiteCheck.business_id check = Business.id business /\
    failed_checks (check_one env i business run) = failed_checks run + raises /\
    successful_checks (check_one env i business run)
    = successful_checks run + (1 - raises).
Proof.
  unfold check_one. destruct (probe_raises env business) as [e|].
  - eexists. cbn. repeat split; lia.
  - destruct (check_business_website env business) as [[we conf] details].
    eexists. cbn. repeat split; lia.
Qed.

(** The loop, when it ends or raises after [k] businesses: the rows it has
    added and what it has counted. *)
Lemma check_loop_spec (env : Env) (total : Z) (businesses : list Business.t) :
  forall i run run' raised,
    check_loop env total i businesses run = (run', raised) ->
    exists k rows,
      (k <= List.length businesses)%nat /\
      added run' = (added run ++ rows)%list /\
      map WebsiteCheck.business_id rows
      = map Business.id (firstn k businesses) /\
      failed_checks run'
      = failed_checks run
        + Z.of_nat
            (List.length
               (filter (fun b => match probe_raises env b with
                                 | Some _ => true
                                 | None => false
                                 end) (firstn k businesses))) /\
      successful_checks run' + failed_checks run'
      = successful_checks run + failed_checks run + Z.of_nat k /\
      match raised with
      | None => k = List.length businesses
      | Some e =>
          (1 <= k)%nat /\ update_state env (Z.of_nat (i + k)) total = Some e
      end.
Proof.
  induction businesses as [|b rest IH]; intros i run run' raised Hloop.
  - cbn in Hloop. injection Hloop as <- <-.
    exists 0%nat, []. cbn. rewrite app_nil_r. repeat split; lia.
  - cbn [check_loop] in Hloop.
    destruct (check_one_step env i b run) as (check & Hadd & Hbid & Hf & Hs).
    cbn zeta in Hf, Hs.
    destruct (update_state env (Z.of_nat i + 1) total) as [e|] eqn:Hprogress.
    + injection Hloop as <- <-.
      exists 1%nat, [check]. cbn [firstn map filter List.length].
      split; [lia|]. split; [exact Hadd|]. split; [now rewrite Hbid|].
      destruct (probe_raises env b); cbn [List.length];
        (split; [lia|]); (split; [lia|]);
        (split; [lia|]);
        replace (Z.of_nat (i + 1)) with (Z.of_nat i + 1) by lia;
        exact Hprogress.
    + destruct (IH (S i) _ _ _ Hloop)
        as (k & rows & Hk & Hrows & Hids & Hfail & Hsum & Hend).
      exists (S k), (check :: rows). cbn [firstn map filter List.length].
      split; [lia|].
      split; [rewrite Hrows, Hadd, <- app_assoc; reflexivity|].
      split; [now rewrite Hbid, Hids|].
      split.
      * rewrite Hfail, Hf.
        destruct (probe_raises env b); cbn [List.length]; lia.
      * split; [lia|].
        destruct raised as [e|]; [|lia].
        destruct Hend as [Hk1 Hup]. split; [lia|].
        now replace (i + S k)%nat with (S i + k)%nat by lia.
Qed.

(** X10.  A task run for a stored job never gets past its first commit.
    The first lines of both tasks assign [time.time()], a float, to the
    [DateTime] column [started_at] and commit: the commit raises, and the
    commit in the handler of the task raises in its turn, the session being
    left inactive by the failed flush.  The run ends with
    [PendingRollbackError] and the store is exactly as before: the job is
    neither running nor failed, and no business and no check row is
    written. *)
Theorem task_for_stored_job_raises (env : Env) (call : TaskCall) (w : World)
    (job : CrawlJob.t) :
  find_job (task_job call) w = Some job ->
  task_begin env (task_job call) w
  = (Some job, (Inactive, inr StatementError)) /\
  run_task env call w = (TaskRaised PendingRollbackError, w) /\
  find_job (task_job call) (snd (run_task env call w)) = Some job.
Proof.
  intros stored.
  assert (Hrun : run_task env call w = (TaskRaised PendingRollbackError, w))
    by now apply run_task_stored with (job := job).
  split; [now apply task_begin_stored|]. split; [exact Hrun|].
  now rewrite Hrun.
Qed.
Lemma task_for_stored_job_raises_witness :
  status_of 1 Scenario.check_started = Some PENDING /\
  run_task Scenario.dns_timeouts (CheckWebsites 1 (Some [1; 2]))
    Scenario.check_started
  = (TaskRaised PendingRollbackError, Scenario.check_started).
Proof.
  split; [reflexivity|].
  destruct (find_job 1 Scenario.check_started) as [job|] eqn:stored;
    [|vm_compute in stored; discriminate stored].
  now apply (task_for_stored_job_raises Scenario.dns_timeouts
               (CheckWebsites 1 (Some [1; 2])) Scenario.check_started job).
Defined.
(** X12.  A task run for a job id that no stored job has does its work and
    returns its report, but commits nothing: the store is exactly as
    before, with no business, no check row and no job changed.  The crawl
    task even so reports as found every candidate it would have added. *)
Theorem task_for_unknown_job_stores_nothing (env : Env) (job_id : Z)
    (w : World) :
  (forall j, In j (jobs w) -> CrawlJob.id j <> job_id) ->
  (forall business_ids,
     snd (check_websites env job_id business_ids w) = w) /\
  (forall location industry,
     snd (crawl_google_maps env job_id location industry w) = w) /\
  (forall location industry,
     fst (crawl_google_maps env job_id (Some location) industry w)
     = CrawlReport
         (Z.of_nat
            (List.length
               (filter (unknown w)
                  (example_businesses job_id location industry)))) 2) /\
  (forall business_ids,
     (forall current total, update_state env current total = None) ->
     exists s f,
       fst (check_websites env job_id business_ids w)
       = CheckReport s f
           (Z.of_nat (List.length (select_businesses business_ids w)))).
Proof.
  intros Hunknown. apply find_job_none in Hunknown.
  split; [|split; [|split]].
  - intros business_ids. apply check_websites_store.
  - intros location industry. apply crawl_google_maps_store.
  - intros location industry.
    rewrite (crawl_google_maps_unstored env job_id (Some location) industry w
               Hunknown).
    unfold crawl_body. rewrite crawl_loop_unknown. reflexivity.
  - intros business_ids Hquiet.
    rewrite (check_websites_unstored env job_id business_ids w Hunknown).
    unfold check_body.
    destruct (check_loop env _ 0 (select_businesses business_ids w) _)
      as [run raised] eqn:Hloop.
    destruct (check_loop_spec _ _ _ _ _ _ _ Hloop)
      as (k & rows & _ & _ & _ & _ & _ & Hend).
    destruct raised as [e|].
    + destruct Hend as [_ Hup]. rewrite Hquiet in Hup. discriminate.
    + cbn [fst]. now do 2 eexists.
Qed.
Lemma task_for_unknown_job_stores_nothing_witness :
  snd (check_websites Scenario.dns_timeouts 7 (Some [1; 2])
         Scenario.check_running) = Scenario.check_running /\
  fst (crawl_google_maps Scenario.dns_timeouts 7 (Some "Utrecht") None
         Scenario.check_running) = CrawlReport 2 2.
Proof.
  destruct (task_for_unknown_job_stores_nothing Scenario.dns_timeouts 7
              Scenario.check_running) as (Hcheck & _ & Hcrawl & _).
  - intros j [<-|[]]. discriminate.
  - split; [apply Hcheck|]. rewrite Hcrawl. reflexivity.
Defined.

Lemma select_businesses_explicit (ids : list Z) (w : World) :
  ids <> [] ->
  select_businesses (Some ids) w
  = filter (fun b => existsb (Z.eqb (Business.id b)) ids) (businesses w).
Proof. unfold select_businesses. now destruct ids. Qed.

Lemma existsb_id (z : Z) (ids : list Z) :
  existsb (Z.eqb z) ids = true <-> In z ids.
Proof.
  rewrite existsb_exists. split.
  - intros (x & Hin & Heq). apply Z.eqb_eq in Heq. now subst.
  - intros Hin. exists z. split; [exact Hin|apply Z.eqb_refl].
Qed.

(** X13.  With an explicit, non-empty list of business ids the task checks
    the stored businesses whose id is in the list, in the order of the
    table: the order of the ids and their repetitions do not matter, and
    ids that no business has are passed over without an error.  Over
    unknown ids only the selection is empty, and a run that returns reports
    0 checks done. *)
Theorem explicit_ids_select_stored_businesses (ids : list Z) (w : World) :
  ids <> [] ->
  (forall b,
     In b (select_businesses (Some ids) w) <->
     In b (businesses w) /\ In (Business.id b) ids) /\
  (forall ids',
     ids' <> [] -> (forall z, In z ids <-> In z ids') ->
     select_businesses (Some ids') w = select_businesses (Some ids) w) /\
  ((forall b, In b (businesses w) -> ~ In (Business.id b) ids) ->
   select_businesses (Some ids) w = [] /\
   forall env job_id,
     find_job job_id w = None ->
     check_websites env job_id (Some ids) w = (CheckReport 0 0 0, w)).
Proof.
  intros Hids. split; [|split].
  - intros b. rewrite (select_businesses_explicit ids w Hids), filter_In.
    now rewrite existsb_id.
  - intros ids' Hids' Hsame.
    rewrite (select_businesses_explicit ids w Hids),
      (select_businesses_explicit ids' w Hids').
    apply filter_ext. intros b.
    destruct (existsb (Z.eqb (Business.id b)) ids) eqn:E.
    + apply existsb_id. apply Hsame. now apply existsb_id.
    + destruct (existsb (Z.eqb (Business.id b)) ids') eqn:E'; [|reflexivity].
      apply existsb_id, Hsame, existsb_id in E'. congruence.
  - intros Hnone.
    assert (Hempty : select_businesses (Some ids) w = []).
    { rewrite (select_businesses_explicit ids w Hids).
      apply filter_all_rejected. intros b Hb.
      destruct (existsb (Z.eqb (Business.id b)) ids) eqn:E; [|reflexivity].
      apply existsb_id in E. now destruct (Hnone b Hb). }
    split; [exact Hempty|]. intros env job_id missing.
    rewrite (check_websites_unstored env job_id (Some ids) w missing).
    unfold check_body. now rewrite Hempty.
Qed.

Lemma explicit_ids_select_stored_businesses_witness :
  select_businesses (Some [2; 2; 9; 1]) Scenario.check_running
  = select_businesses (Some [1; 2; 9]) Scenario.check_running /\
  fst (check_websites Scenario.dns_timeouts 7 (Some [8; 9])
         Scenario.check_running) = CheckReport 0 0 0.
Proof.
  split.
  - apply (explicit_ids_select_stored_businesses [1; 2; 9]
             Scenario.check_running); [discriminate|discriminate|].
    intros z. cbn. tauto.
  - destruct (explicit_ids_select_stored_businesses [8; 9]
                Scenario.check_running) as (_ & _ & Hnone); [discriminate|].
    destruct Hnone as [_ Hrun].
    + intros b Hb. vm_compute in Hb. vm_compute.
      destruct Hb as [<-|[<-|[]]]; intros [H|[H|[]]]; discriminate.
    + now rewrite (Hrun Scenario.dns_timeouts 7 eq_refl).
Defined.
(** The last HTTP status a negative probe has seen is an error status. *)
Lemma probe_domains_outcome (env : Env) (domains : list string) :
  forall details website_exists confidence_score details',
    probe_domains env domains details
    = (website_exists, confidence_score, details') ->
    (cd_status_code details = None \/
     exists s, cd_status_code details = Some s /\ 400 <= s) ->
    (website_exists = true /\
     exists s,
       cd_status_code details' = Some s /\ s < 400 /\
       confidence_score = (if s =? 200 then 0.9 else 0.7)%Q) \/
    (website_exists = false /\ confidence_score = 0.0%Q /\
     (cd_status_code details' = None \/
      exists s, cd_status_code details' = Some s /\ 400 <= s)).
Proof.
  induction domains as [|d domains IH];
    intros details we conf details' Hrun Hbefore.
  - cbn in Hrun. injection Hrun as <- <- <-. right. now repeat split.
  - cbn [probe_domains] in Hrun.
    destruct (resolve env d) as [records| |e].
    + destruct (fetch env _) as [s hs t|e].
      * destruct (s =? 200) eqn:E200.
        { injection Hrun as <- <- <-. left. split; [reflexivity|].
          exists s. apply Z.eqb_eq in E200. cbn. rewrite E200.
          repeat split; lia. }
        destruct (s <? 400) eqn:E400.
        { injection Hrun as <- <- <-. left. split; [reflexivity|].
          exists s. apply Z.ltb_lt in E400. cbn. rewrite E200.
          now repeat split. }
        apply (IH _ _ _ _ Hrun). right. exists s.
        apply Z.ltb_ge in E400. now split.
      * apply (IH _ _ _ _ Hrun). exact Hbefore.
    + apply (IH _ _ _ _ Hrun). exact Hbefore.
    + apply (IH _ _ _ _ Hrun). exact Hbefore.
Qed.

(** X14.  Whatever the resolver and the web server answer, the probe of a
    business returns one of two shapes: a website with confidence 0.9 or
    0.7 and a recorded HTTP status below 400, or no website with confidence
    0.0 and either no status or the error status (400 or more) of the last
    page fetched.  The confidence is within [0, 1], it is positive exactly
    when a website was found, 0.9 goes with status 200 only, and the
    [is_error] entry of the details is never set. *)
Theorem check_business_website_outcome (env : Env) (business : Business.t) :
  let '(website_exists, confidence_score, details) :=
    check_business_website env business in
  ((website_exists = true /\
    exists s,
      cd_status_code details = Some s /\ s < 400 /\
      confidence_score = (if s =? 200 then 0.9 else 0.7)%Q) \/
   (website_exists = false /\ confidence_score = 0.0%Q /\
    (cd_status_code details = None \/
     exists s, cd_status_code details = Some s /\ 400 <= s))) /\
  (0 <= confidence_score <= 1)%Q /\
  (website_exists = true <-> (0 < confidence_score)%Q) /\
  cd_is_error details = false.
Proof.
  destruct (check_business_website env business) as [[we conf] details] eqn:E.
  pose proof (probe_domains_is_error env (potential_domains business)
                initial_details) as Hflag.
  unfold check_business_website in E. rewrite E in Hflag. cbn in Hflag.
  pose proof (probe_domains_outcome env _ _ _ _ _ E (or_introl eq_refl))
    as Hshape.
  split; [exact Hshape|].
  split; [|split; [|exact Hflag]].
  - destruct Hshape as [(_ & s & _ & _ & ->)|(_ & -> & _)];
      [destruct (s =? 200)|]; split; discriminate.
  - destruct Hshape as [(-> & s & _ & _ & ->)|(-> & -> & _)].
    + split; [intros _|reflexivity]. now destruct (s =? 200).
    + split; discriminate.
Qed.

(** X15.  The check row the loop of [check_websites] adds for a business is
    a "combined" row for that business with the .nl address of its name as
    [url_checked].  Its [is_error] flag is set exactly when the check raised
    out of the probe: a check that returned is never flagged, even when the
    probe of every candidate domain failed and left an error message in the
    row. *)
Theorem check_row_is_error_iff_raised (env : Env) (i : nat)
    (business : Business.t) (run : CheckRun) :
  exists check,
    added (check_one env i business run) = (added run ++ [check])%list /\
    WebsiteCheck.business_id check = Business.id business /\
    WebsiteCheck.check_type check = "combined" /\
    WebsiteCheck.url_checked check = nl_url business /\
    (WebsiteCheck.is_error check = true <->
     probe_raises env business <> None) /\
    (WebsiteCheck.is_error check = true ->
     WebsiteCheck.website_exists check = false /\
     WebsiteCheck.confidence_score check = 0.0%Q /\
     WebsiteCheck.status_code check = None /\
     WebsiteCheck.error_message check = probe_raises env business) /\
    (WebsiteCheck.is_error check = false ->
     (WebsiteCheck.website_exists check, WebsiteCheck.confidence_score check)
     = fst (check_business_website env business) /\
     WebsiteCheck.error_message check
     = cd_error_message (snd (check_business_website env business))).
Proof.
  unfold check_one. destruct (probe_raises env business) as [e|].
  - eexists. cbn [added]. split; [reflexivity|]. cbn.
    repeat split; congruence.
  - pose proof (probe_domains_is_error env (potential_domains business)
                  initial_details) as Hflag.
    fold (check_business_website env business) in Hflag.
    destruct (check_business_website env business) as [[we conf] details].
    cbn in Hflag. eexists. cbn [added]. split; [reflexivity|].
    cbn. rewrite Hflag. repeat split; congruence.
Qed.

Lemma last_char_app (a y : string) :
  y <> EmptyString -> last_char (a ++ y) = last_char y.
Proof.
  intros Hy. induction a as [|c a IH]; [reflexivity|].
  cbn [append last_char]. destruct (a ++ y) eqn:E.
  - destruct a; [cbn in E; contradiction|discriminate].
  - exact IH.
Qed.

Lemma last_char_suffix (a b : string) (c : ascii) (t : string) :
  last_char (a ++ b ++ String c t) = last_char (String c t).
Proof.
  rewrite last_char_app by (destruct b; discriminate).
  apply last_char_app. discriminate.
Qed.

(** X16.  The address stored for a business found to have a website is
    always the .nl address built from its name, whichever candidate domain
    answered: when the first answering domain is the .com, .be, .de or .lu
    candidate, the check row and the business still get the .nl address,
    which is not the address that was fetched. *)
Theorem stored_url_is_the_nl_address (env : Env) (i : nat)
    (business : Business.t) (run : CheckRun) (pre : list string)
    (domain : string) (post : list string) (s : Z) :
  potential_domains business = (pre ++ domain :: post)%list ->
  (forall d, In d pre -> responds env d = false) ->
  http_status env domain = Some s -> s < 400 ->
  probe_raises env business = None ->
  exists check business',
    check_one env i business run
    = mkCheckRun (dirty run ++ [business']) (added run ++ [check])
        (successful_checks run + 1) (failed_checks run) /\
    WebsiteCheck.website_exists check = true /\
    WebsiteCheck.status_code check = Some s /\
    WebsiteCheck.url_checked check = nl_url business /\
    Business.website_url business' = Some (nl_url business) /\
    (pre <> [] -> nl_url business <> "https://" ++ domain).
Proof.
  intros Hsplit Hpre Hdom Hlow Hquiet.
  destruct (probe_domains_first_responding env pre domain post s Hpre Hdom
              Hlow initial_details) as (details & Hrun & Hstatus).
  unfold check_one. rewrite Hquiet. unfold check_business_website.
  rewrite Hsplit, Hrun.
  do 2 eexists. split; [reflexivity|].
  split; [reflexivity|]. split; [exact Hstatus|].
  split; [reflexivity|]. split; [reflexivity|].
  intros Hlater Heq. apply (f_equal last_char) in Heq.
  unfold nl_url in Heq. rewrite last_char_suffix in Heq.
  destruct pre as [|p pre]; [contradiction|].
  unfold potential_domains in Hsplit. cbn [app] in Hsplit.
  injection Hsplit as _ Hrest.
  assert (Hin : In domain
                  [business_name business ++ ".com";
                   business_name business ++ ".be";
                   business_name business ++ ".de";
                   business_name business ++ ".lu"])
    by (rewrite Hrest; apply in_or_app; right; now left).
  cbn [In] in Hin.
  destruct Hin as [<-|[<-|[<-|[<-|[]]]]];
    rewrite last_char_suffix in Heq; discriminate.
Qed.

Lemma stored_url_is_the_nl_address_witness :
  let env :=
    mkEnv (fun d => if String.eqb d "alphabakery.com"
                    then DnsRecords ["192.0.2.9"] else NXDOMAIN)
      (fun _ => HttpResponse 301 [] 0.5%Q) (fun _ => None)
      (fun _ _ => None) (Scenario.clock_from 10) in
  http_status env "alphabakery.com" = Some 301 /\
  map Business.website_url
    (dirty (check_one env 0 Scenario.alpha (mkCheckRun [] [] 0 0)))
  = [Some "https://alphabakery.nl"].
Proof.
  cbn zeta. split; [reflexivity|].
  edestruct (stored_url_is_the_nl_address
               (mkEnv (fun d => if String.eqb d "alphabakery.com"
                                then DnsRecords ["192.0.2.9"] else NXDOMAIN)
                  (fun _ => HttpResponse 301 [] 0.5%Q) (fun _ => None)
                  (fun _ _ => None) (Scenario.clock_from 10))
               0 Scenario.alpha (mkCheckRun [] [] 0 0) ["alphabakery.nl"]
               "alphabakery.com"
               ["alphabakery.be"; "alphabakery.de"; "alphabakery.lu"] 301)
    as (check & business' & Hrun & _ & _ & _ & Hurl & _).
  - vm_compute. reflexivity.
  - intros d [<-|[]]. vm_compute. reflexivity.
  - vm_compute. reflexivity.
  - reflexivity.
  - reflexivity.
  - rewrite Hrun. cbn [dirty app map]. rewrite Hurl. vm_compute. reflexivity.
Defined.

(** X17.  [check_single_website] never returns and never stores anything.
    On an id that no business has it raises "Business <id> not found".  On
    a stored business whose check raises it raises that exception again,
    recording no error row.  And when the check returns, its commit has the
    [time.time()] assigned to the [DateTime] column [last_checked] to
    write: the commit raises, the task raises with it, and neither the
    check row nor the outcome on the business is stored. *)
Theorem check_single_website_cases (env : Env) (business_id : Z) (w : World) :
  snd (check_single_website env business_id w) = w /\
  (exists e, fst (check_single_website env business_id w) = SingleRaised e) /\
  ((forall b, In b (businesses w) -> Business.id b <> business_id) ->
   fst (check_single_website env business_id w)
   = SingleRaised ("Business " ++ Py.str_int business_id ++ " not found")) /\
  (forall business,
     find_business business_id w = Some business ->
     fst (check_single_website env business_id w)
     = SingleRaised match probe_raises env business with
                    | Some e => e
                    | None => StatementError
                    end).
Proof.
  assert (Hfound :
    forall business,
      find_business business_id w = Some business ->
      fst (check_single_website env business_id w)
      = SingleRaised match probe_raises env business with
                     | Some e => e
                     | None => StatementError
                     end).
  { intros business stored. unfold check_single_website. rewrite stored.
    destruct (probe_raises env business); [reflexivity|].
    now destruct (check_business_website env business) as [[? ?] ?]. }
  split; [apply check_single_website_store|]. split; [|split].
  - destruct (find_business business_id w) as [business|] eqn:stored.
    + eexists. now apply Hfound.
    + unfold check_single_website. rewrite stored. now eexists.
  - intros Hunknown. unfold check_single_website.
    replace (find_business business_id w) with (@None Business.t);
      [reflexivity|].
    unfold find_business. symmetry.
    destruct (find _ (businesses w)) as [b|] eqn:Hfind; [|reflexivity].
    apply find_some in Hfind as [Hin Hid]. apply Z.eqb_eq in Hid.
    now destruct (Hunknown b Hin).
  - exact Hfound.
Qed.

Lemma check_single_website_cases_witness :
  check_single_website Scenario.test2_online 9 Scenario.catalogue
  = (SingleRaised "Business 9 not found", Scenario.catalogue) /\
  fst (fst (check_business_website Scenario.test2_online Scenario.test2))
  = true /\
  check_single_website Scenario.test2_online 2 Scenario.catalogue
  = (SingleRaised StatementError, Scenario.catalogue).
Proof.
  destruct (check_single_website_cases Scenario.test2_online 9
              Scenario.catalogue) as (Hstore & _ & Hunknown & _).
  destruct (check_single_website_cases Scenario.test2_online 2
              Scenario.catalogue) as (Hstore' & _ & _ & Hfound).
  split; [|split; [vm_compute; reflexivity|]].
  - rewrite (surjective_pairing (check_single_website _ 9 _)).
    rewrite Hstore, Hunknown; [reflexivity|].
    intros b Hb. vm_compute in Hb.
    destruct Hb as [<-|[<-|[]]]; discriminate.
  - rewrite (surjective_pairing (check_single_website _ 2 _)).
    now rewrite Hstore', (Hfound Scenario.test2 eq_refl).
Defined.
(** * Properties of the system as a whole *)

Lemma find_app_last_rejected {A} (f : A -> bool) (l : list A) (x : A) :
  f x = false -> find f (l ++ [x]) = find f l.
Proof.
  intros Hx. induction l as [|a l IH]; cbn; [now rewrite Hx|].
  now destruct (f a).
Qed.

(** The three writes of a start endpoint: the new row, the task, the task
    id on the row. *)
Lemma started_effect (e : Event) (job : CrawlJob.t) (call : TaskCall)
    (w : World) :
  CrawlJob.id job = next_id CrawlJob.id (jobs w) ->
  fresh_job job -> calls_for call job ->
  (forall job_id industry, call <> CrawlGoogleMaps job_id None industry) ->
  Effect e w
    (commit_job
       (CrawlJob.set_celery_task_id (Some (List.length (sent_tasks w))) job)
       (set_sent_tasks (sent_tasks w ++ [call])%list
          (set_jobs (jobs w ++ [job])%list w))).
Proof.
  intros Hid Hfresh Hcall Hloc.
  destruct (new_job_dispatched job call w Hid) as (Hnew & _ & _).
  cbn zeta in Hnew.
  apply Started with (job := job) (call := call); try assumption;
    try reflexivity.
  - apply find_job_none. intros j Hj.
    pose proof (next_id_fresh CrawlJob.id (jobs w) j Hj). lia.
  - intros other Hne. rewrite find_job_commit_other by exact Hne.
    unfold find_job. cbn [jobs set_jobs set_sent_tasks].
    apply find_app_last_rejected. apply Z.eqb_neq. congruence.
Qed.

Ltac start_shape :=
  lazymatch goal with
  | |- Effect ?e ?w
         (commit_job (CrawlJob.set_celery_task_id _ ?job)
            (set_sent_tasks (_ ++ [?call])%list _)) =>
      change
        (Effect e w
           (commit_job
              (CrawlJob.set_celery_task_id
                 (Some (List.length (sent_tasks w))) job)
              (set_sent_tasks (sent_tasks w ++ [call])%list
                 (set_jobs (jobs w ++ [job])%list w))))
  end.

Lemma step_effect (e : Event) (w : World) : Effect e w (step e w).
Proof.
  destruct e as [location industry|business_ids|job_id|job_id|env task
                |env business_id]; cbn [step].
  - (* start_google_maps_crawl *)
    cbv beta iota zeta delta [start_google_maps_crawl add_job send_task snd].
    start_shape.
    apply started_effect; [reflexivity|repeat split|repeat split|discriminate].
  - (* start_website_check *)
    cbv beta iota zeta delta [start_website_check add_job send_task snd].
    start_shape.
    apply started_effect; [reflexivity|repeat split|repeat split|discriminate].
  - (* cancel_job *)
    destruct (find_job job_id w) as [job|] eqn:stored.
    + pose proof (find_job_id _ _ _ stored) as Hid.
      destruct (cancel_job_cases job_id w job stored)
        as [[_ ->]|[Hopen ->]]; [now apply Quiet|].
      cbn [snd].
      apply Cancelled with (job_id := job_id) (job := job);
        try assumption; try reflexivity.
      * apply find_job_commit_job with (job := job); [|exact Hid].
        rewrite <- stored. now apply find_job_same_jobs.
      * intros other Hne. rewrite find_job_commit_other
          by (cbn [CrawlJob.id CrawlJob.set_status]; congruence).
        now apply find_job_same_jobs.
    + unfold cancel_job. rewrite stored. now apply Quiet.
  - (* retry_job *)
    destruct (find_job job_id w) as [job|] eqn:stored.
    + pose proof (find_job_id _ _ _ stored) as Hid.
      unfold retry_job. rewrite stored.
      destruct (CrawlJob.can_retry job) eqn:Hretry; cbn [negb];
        [|now apply Quiet].
      cbn [CrawlJob.job_type CrawlJob.set_error_message
           CrawlJob.set_retry_count CrawlJob.set_status].
      destruct (CrawlJob.job_type job) eqn:Hkind; try (now apply Quiet).
      * cbv beta iota zeta delta [send_task snd].
        eapply Retried
          with (job_id := job_id) (job := job)
               (call := CrawlGoogleMaps (CrawlJob.id job)
                          (CrawlJob.target_location job)
                          (CrawlJob.target_industry job));
          [reflexivity|exact stored|exact Hretry| | | | |].
        -- split; [reflexivity|]. split; [exact Hkind|]. split; reflexivity.
        -- reflexivity.
        -- reflexivity.
        -- apply find_job_commit_job with (job := job); [|exact Hid].
           rewrite <- stored. now apply find_job_same_jobs.
        -- intros other Hne. rewrite find_job_commit_other
             by (cbn; congruence).
           now apply find_job_same_jobs.
      * cbv beta iota zeta delta [send_task snd].
        eapply Retried
          with (job_id := job_id) (job := job)
               (call := CheckWebsites (CrawlJob.id job) None);
          [reflexivity|exact stored|exact Hretry| | | | |].
        -- split; [reflexivity|]. exact Hkind.
        -- reflexivity.
        -- reflexivity.
        -- apply find_job_commit_job with (job := job); [|exact Hid].
           rewrite <- stored. now apply find_job_same_jobs.
        -- intros other Hne. rewrite find_job_commit_other
             by (cbn; congruence).
           now apply find_job_same_jobs.
    + unfold retry_job. rewrite stored. now apply Quiet.
  - (* a worker runs a task *)
    destruct (nth_error (sent_tasks w) task) as [call|]; [|now apply Quiet].
    rewrite run_task_store. now apply Quiet.
  - (* check_single_website *)
    rewrite check_single_website_store. now apply Quiet.
Qed.
(** An invariant of the steps is an invariant of the runs. *)
Lemma run_events_ind (P : World -> Prop) :
  (forall e w, P w -> P (step e w)) ->
  forall events w, P w -> P (run_events events w).
Proof.
  intros Hstep events. induction events as [|e events IH]; intros w Hw;
    [exact Hw|].
  cbn [run_events fold_left]. apply IH. now apply Hstep.
Qed.


(** The history of the jobs follows from what a cancellation, a retry and
    a start do to one job. *)
Section JobHistory.

Variable P : CrawlJob.t -> CrawlJob.t -> Prop.
Variable N : CrawlJob.t -> Prop.
Hypothesis P_refl : forall j, P j j.
Hypothesis P_trans : forall j1 j2 j3, P j1 j2 -> P j2 j3 -> P j1 j3.
Hypothesis P_cancel :
  forall j, CrawlJob.is_completed j = false ->
            P j (CrawlJob.set_status CANCELLED j).
Hypothesis P_retry :
  forall j task, CrawlJob.can_retry j = true -> P j (retried task j).
Hypothesis N_fresh :
  forall j task, fresh_job j -> N (CrawlJob.set_celery_task_id (Some task) j).
Hypothesis N_kept : forall j j', N j -> P j j' -> N j'.

Lemma step_history (e : Event) (w : World) : history P N w (step e w).
Proof.
  assert (Hwritten :
    forall target job job',
      find_job target w = Some job -> P job job' ->
      find_job target (step e w) = Some job' ->
      others_kept target w (step e w) ->
      history P N w (step e w)).
  { intros target job job' stored HP Hnew Hkept. split.
    - intros job_id j Hfind.
      destruct (Z.eq_dec job_id target) as [->|Hne].
      + exists job'. split; [exact Hnew|]. congruence.
      + exists j. rewrite Hkept by exact Hne. now split.
    - intros job_id j' Hnone Hfind.
      destruct (Z.eq_dec job_id target) as [->|Hne]; [congruence|].
      rewrite Hkept in Hfind by exact Hne. congruence. }
  destruct (step_effect e w)
    as [Hjobs _ _
       |job call Hnone Hfresh _ _ _ _ Hnew Hkept
       |target job _ stored Hopen _ _ Hnew Hkept
       |target job call _ stored Hretry _ _ _ Hnew Hkept].
  - split.
    + intros job_id j Hfind. exists j.
      rewrite (find_job_same_jobs _ _ _ Hjobs). now split.
    + intros job_id j' Hnone Hfind.
      rewrite (find_job_same_jobs _ _ _ Hjobs) in Hfind. congruence.
  - split.
    + intros job_id j Hfind. exists j. split; [|apply P_refl].
      rewrite Hkept; [exact Hfind|]. intros ->. congruence.
    + intros job_id j' Hnone' Hfind.
      destruct (Z.eq_dec job_id (CrawlJob.id job)) as [->|Hne].
      * rewrite Hnew in Hfind. injection Hfind as <-. now apply N_fresh.
      * rewrite Hkept in Hfind by exact Hne. congruence.
  - apply (Hwritten target job (CrawlJob.set_status CANCELLED job));
      auto.
  - apply (Hwritten target job (retried (List.length (sent_tasks w)) job));
      auto.
Qed.

Lemma run_events_history (events : list Event) :
  forall w, history P N w (run_events events w).
Proof.
  induction events as [|e events IH]; intros w.
  - split; [intros job_id j Hfind; now exists j|].
    intros job_id j' Hnone Hfind. cbn in Hfind. congruence.
  - cbn [run_events fold_left].
    destruct (step_history e w) as [Hold Hnew].
    destruct (IH (step e w)) as [Hold' Hnew'].
    fold (run_events events (step e w)) in *.
    split.
    + intros job_id j Hfind.
      destruct (Hold _ _ Hfind) as (j1 & Hfind1 & HP1).
      destruct (Hold' _ _ Hfind1) as (j2 & Hfind2 & HP2).
      exists j2. split; [exact Hfind2|]. now apply (P_trans j j1).
    + intros job_id j' Hnone Hfind.
      destruct (find_job job_id (step e w)) as [j1|] eqn:Hfind1.
      * destruct (Hold' _ _ Hfind1) as (j2 & Hfind2 & HP2).
        rewrite Hfind in Hfind2. injection Hfind2 as <-.
        apply (N_kept j1); [|exact HP2]. now apply (Hnew job_id).
      * now apply (Hnew' job_id).
Qed.

End JobHistory.

(** ** The start time of a job *)



(** X20.  A job started through the API never runs.  From a store whose
    jobs no task has written to, every sequence of requests to the jobs API
    and of task runs leads to a store whose jobs are all pending or
    cancelled, with counters 0, no start time, no completion time, no error
    message and [retry_count] 0: no job is ever running, completed or
    failed, [progress_percentage] stays 0, and no retry request is ever
    accepted. *)
Theorem api_jobs_never_run (events : list Event) (w : World) :
  (forall job_id j, find_job job_id w = Some j -> never_run j) ->
  let w' := run_events events w in
  (forall job_id j,
     find_job job_id w' = Some j ->
     never_run j /\ (progress_percentage j == 0)%Q) /\
  (forall job_id, accepted (fst (retry_job job_id w')) = false).
Proof.
  intros Hw. cbn zeta.
  assert (Hall : forall job_id j,
            find_job job_id (run_events events w) = Some j -> never_run j).
  { destruct (run_events_history
                (fun j j' => never_run j -> never_run j') never_run)
      with (events := events) (w := w) as [Hold Hnew].
    - auto.
    - auto.
    - intros j _ (_ & Hrest). split; [now right|exact Hrest].
    - intros j task Hretry ([Hst|Hst] & _);
        apply can_retry_spec in Hretry as [Hfailed _]; congruence.
    - intros j task (Hst & Hc & He & Hr & _ & _ & Hsa & Hca).
      repeat split; try assumption. now left.
    - auto.
    - intros job_id j Hfind.
      destruct (find_job job_id w) as [j0|] eqn:stored.
      + destruct (Hold _ _ stored) as (j' & Hfind' & Hkeep).
        rewrite Hfind in Hfind'. injection Hfind' as <-.
        apply Hkeep. now apply (Hw job_id).
      + now apply (Hnew job_id). }
  split.
  - intros job_id j Hfind. pose proof (Hall _ _ Hfind) as Hj.
    split; [exact Hj|].
    destruct Hj as (_ & Hc & _). unfold counters in Hc.
    unfold progress_percentage.
    replace (CrawlJob.total_items j) with 0 by congruence. reflexivity.
  - intros job_id. unfold retry_job.
    destruct (find_job job_id (run_events events w)) as [j|] eqn:stored;
      [|reflexivity].
    destruct (Hall _ _ stored) as (Hst & _).
    replace (CrawlJob.can_retry j) with false; [reflexivity|].
    symmetry. destruct (CrawlJob.can_retry j) eqn:Hretry; [|reflexivity].
    apply can_retry_spec in Hretry as [Hfailed _].
    destruct Hst; congruence.
Qed.

Lemma api_jobs_never_run_witness :
  let w' :=
    run_events
      [Work Scenario.dns_timeouts 0%nat; RetryJob 1;
       StartGoogleMapsCrawl "Utrecht" None; Work Scenario.dns_timeouts 1%nat;
       CancelJob 1; Work Scenario.test2_online 0%nat]
      Scenario.check_started in
  map CrawlJob.status (jobs w') = [CANCELLED; PENDING] /\
  (forall job_id j, find_job job_id w' = Some j -> never_run j) /\
  accepted (fst (retry_job 1 w')) = false.
Proof.
  cbn zeta. split; [vm_compute; reflexivity|].
  assert (Hstart : forall job_id j,
            find_job job_id Scenario.check_started = Some j -> never_run j).
  { intros job_id j Hfind. unfold find_job in Hfind.
    apply find_some in Hfind as [Hin _]. vm_compute in Hin.
    destruct Hin as [<-|[]]. vm_compute. repeat split; now left. }
  destruct (api_jobs_never_run
              [Work Scenario.dns_timeouts 0%nat; RetryJob 1;
               StartGoogleMapsCrawl "Utrecht" None;
               Work Scenario.dns_timeouts 1%nat;
               CancelJob 1; Work Scenario.test2_online 0%nat]
              Scenario.check_started Hstart) as [Hjobs Hretry].
  split; [|apply Hretry].
  intros job_id j Hfind. now destruct (Hjobs job_id j Hfind).
Defined.

Lemma step_tables (e : Event) (w : World) :
  businesses (step e w) = businesses w /\
  website_checks (step e w) = website_checks w.
Proof.
  destruct e as [location industry|business_ids|job_id|job_id|env task
                |env business_id]; cbn [step].
  - now split.
  - now split.
  - destruct (find_job job_id w) as [job|] eqn:stored.
    + destruct (cancel_job_cases job_id w job stored) as [[_ ->]|[_ ->]];
        now split.
    + unfold cancel_job. rewrite stored. now split.
  - destruct (find_job job_id w) as [job|] eqn:stored.
    + destruct (retry_job_cases job_id w job stored)
        as [[_ ->]|[(_ & _ & _ & ->)|(_ & _ & call & _ & ->)]]; now split.
    + unfold retry_job. rewrite stored. now split.
  - destruct (nth_error (sent_tasks w) task); [|now split].
    rewrite run_task_store. now split.
  - rewrite check_single_website_store. now split.
Qed.

(** X24.  No sequence of requests to the jobs API and of task runs writes
    a business or a check: the jobs API does not touch the two tables, and
    the commits that would store the outcome of a check or a discovered
    business raise.  The [businesses] and [website_checks] tables stay as
    they were, every business keeps its cached website fields, and the
    batch of unchecked businesses stays the same however many checks have
    been run. *)
Theorem businesses_and_checks_never_written (events : list Event) (w : World) :
  businesses (run_events events w) = businesses w /\
  website_checks (run_events events w) = website_checks w /\
  select_businesses None (run_events events w) = select_businesses None w.
Proof.
  assert (H : businesses (run_events events w) = businesses w /\
              website_checks (run_events events w) = website_checks w).
  { revert w. induction events as [|e events IH]; intros w; [now split|].
    cbn [run_events fold_left].
    destruct (IH (step e w)) as [Hb Hc].
    destruct (step_tables e w) as [Hb' Hc'].
    split; unfold run_events in *; congruence. }
  destruct H as [Hb Hc]. split; [exact Hb|]. split; [exact Hc|].
  unfold select_businesses. now rewrite Hb.
Qed.

Lemma businesses_and_checks_never_written_witness :
  let w' :=
    run_events
      [StartWebsiteCheck (Some [1; 2]); Work Scenario.test2_online 0%nat;
       CheckSingle Scenario.test2_online 2;
       StartGoogleMapsCrawl "Utrecht" None; Work Scenario.dns_timeouts 1%nat]
      Scenario.catalogue in
  map Business.website_exists (businesses w') = [None; None] /\
  website_checks w' = [] /\
  List.length (jobs w') = 2%nat.
Proof.
  cbn zeta.
  destruct (businesses_and_checks_never_written
              [StartWebsiteCheck (Some [1; 2]);
               Work Scenario.test2_online 0%nat;
               CheckSingle Scenario.test2_online 2;
               StartGoogleMapsCrawl "Utrecht" None;
               Work Scenario.dns_timeouts 1%nat]
              Scenario.catalogue) as (Hb & Hc & _).
  rewrite Hb, Hc. split; [reflexivity|]. split; [reflexivity|].
  vm_compute. reflexivity.
Defined.

(** X25.  The counters and the completion time of a job are never
    written.  Through every sequence of requests to the jobs API and of
    task runs, each stored job keeps its four counters, its [completed_at]
    and with them its [progress_percentage]; and a job the sequence has
    started has counters 0, no [completed_at] and a [progress_percentage]
    of 0, whatever its tasks have checked or found. *)
Theorem counters_never_written (events : list Event) (w : World) :
  let w' := run_events events w in
  (forall job_id j,
     find_job job_id w = Some j ->
     exists j',
       find_job job_id w' = Some j' /\
       counters j' = counters j /\
       CrawlJob.completed_at j' = CrawlJob.completed_at j /\
       progress_percentage j' = progress_percentage j) /\
  (forall job_id j',
     find_job job_id w = None -> find_job job_id w' = Some j' ->
     counters j' = (0, 0, 0, 0) /\
     CrawlJob.completed_at j' = None /\
     progress_percentage j' = 0%Q).
Proof.
  cbn zeta.
  destruct (run_events_history
              (fun j j' =>
                 counters j' = counters j /\
                 CrawlJob.completed_at j' = CrawlJob.completed_at j)
              (fun j =>
                 counters j = (0, 0, 0, 0) /\ CrawlJob.completed_at j = None))
    with (events := events) (w := w) as [Hold Hnew].
  - now split.
  - intros j1 j2 j3 [H12 R12] [H23 R23]. split; congruence.
  - intros j _. now split.
  - intros j task _. now split.
  - intros j task (_ & Hc & _ & _ & _ & _ & _ & Hca). now split.
  - intros j j' [Hc Hca] [Hc' Hca']. split; congruence.
  - split.
    + intros job_id j Hfind.
      destruct (Hold _ _ Hfind) as (j' & Hfind' & Hc & Hca).
      exists j'. split; [exact Hfind'|]. split; [exact Hc|].
      split; [exact Hca|].
      unfold counters in Hc. unfold progress_percentage.
      injection Hc as -> -> _ _. reflexivity.
    + intros job_id j' Hnone Hfind.
      destruct (Hnew _ _ Hnone Hfind) as [Hc Hca].
      split; [exact Hc|]. split; [exact Hca|].
      unfold counters in Hc. unfold progress_percentage.
      injection Hc as -> _ _ _. reflexivity.
Qed.

Lemma counters_never_written_witness :
  let w' :=
    run_events
      [RetryJob 1; Work (Scenario.later 50) 1%nat;
       StartWebsiteCheck None; Work Scenario.test2_online 2%nat]
      Scenario.failed_with_completion_time in
  map counters (jobs w') = [(2, 2, 0, 2); (0, 0, 0, 0)] /\
  exists j',
    find_job 1 w' = Some j' /\
    counters j' = (2, 2, 0, 2) /\
    CrawlJob.completed_at j' = Some 20.
Proof.
  cbn zeta. split; [vm_compute; reflexivity|].
  destruct (counters_never_written
              [RetryJob 1; Work (Scenario.later 50) 1%nat;
               StartWebsiteCheck None; Work Scenario.test2_online 2%nat]
              Scenario.failed_with_completion_time) as [Hold _].
  destruct (Hold 1 Scenario.failed_job eq_refl)
    as (j' & Hfind & Hc & Hca & _).
  exists j'. split; [exact Hfind|]. split; [exact Hc|exact Hca].
Defined.
Lemma calls_for_same (call : TaskCall) (j j' : CrawlJob.t) :
  same_job j j' -> calls_for call j -> calls_for call j'.
Proof.
  intros (Hid & _ & Hkind & _ & Hloc & Hind & _) [Hjob Hcall].
  split; [congruence|].
  destruct call; rewrite ?Hkind, ?Hloc, ?Hind; exact Hcall.
Qed.

Lemma calls_for_id (call : TaskCall) (j : CrawlJob.t) :
  calls_for call j -> task_job call = CrawlJob.id j.
Proof. now intros [Hid _]. Qed.

Lemma nth_error_app_old {A} (l l' : list A) (n : nat) (x : A) :
  nth_error l n = Some x -> nth_error (l ++ l') n = Some x.
Proof.
  intros Hn. rewrite nth_error_app1; [exact Hn|].
  apply nth_error_Some. congruence.
Qed.

Lemma nth_error_app_inv {A} (l : list A) (y : A) (n : nat) (x : A) :
  nth_error (l ++ [y]) n = Some x ->
  nth_error l n = Some x \/ n = List.length l /\ x = y.
Proof.
  intros Hn. destruct (Nat.lt_ge_cases n (List.length l)) as [Hlt|Hge].
  - left. now rewrite nth_error_app1 in Hn.
  - right. rewrite nth_error_app2 in Hn by exact Hge.
    destruct (n - List.length l)%nat as [|k] eqn:Hk; cbn in Hn.
    + split; [lia|congruence].
    + now destruct k.
Qed.

Lemma nth_error_app_new {A} (l : list A) (y : A) :
  nth_error (l ++ [y]) (List.length l) = Some y.
Proof. rewrite nth_error_app2 by lia. now rewrite Nat.sub_diag. Qed.

(** The job an event has written keeps the columns it was created with. *)
Lemma same_job_refl (j : CrawlJob.t) : same_job j j.
Proof. repeat split. Qed.

Lemma step_dispatch_sound (e : Event) (w : World) :
  dispatch_sound w -> dispatch_sound (step e w).
Proof.
  intros (Hjobs & Htasks & Hrevoked).
  assert (Hwritten :
    forall target job job',
      find_job target w = Some job -> same_job job job' ->
      CrawlJob.celery_task_id job' = CrawlJob.celery_task_id job ->
      sent_tasks (step e w) = sent_tasks w ->
      find_job target (step e w) = Some job' ->
      others_kept target w (step e w) ->
      (forall task, In task (revoked (step e w)) ->
                    (task < List.length (sent_tasks w))%nat) ->
      dispatch_sound (step e w)).
  { intros target job job' stored Hsame Htask Hsent Hnew Hkept Hrev.
    pose proof (find_job_id _ _ _ stored) as Htarget.
    split; [|split].
    - intros job_id j Hfind.
      destruct (Z.eq_dec job_id target) as [->|Hne].
      + rewrite Hnew in Hfind. injection Hfind as <-.
        destruct (Hjobs _ _ stored) as [Hkind (task & call & Hid & Hnth & Hcall)].
        destruct Hsame as (Hsid & Hsn & Hsk & Hsp & Hsl & Hsi & Hsm).
        split; [now rewrite Hsk, Hsl|].
        exists task, call. rewrite Htask, Hsent.
        split; [exact Hid|]. split; [exact Hnth|].
        apply (calls_for_same call job); [repeat split; assumption|exact Hcall].
      + rewrite Hkept in Hfind by exact Hne.
        destruct (Hjobs _ _ Hfind) as [Hkind (task & call & Hid & Hnth & Hcall)].
        split; [exact Hkind|]. exists task, call. now rewrite Hsent.
    - intros task call Hnth. rewrite Hsent in Hnth.
      destruct (Htasks _ _ Hnth) as (j & Hfind & Hcall).
      destruct (Z.eq_dec (task_job call) target) as [Heq|Hne].
      + rewrite Heq in *. exists job'. split; [exact Hnew|].
        rewrite stored in Hfind. injection Hfind as <-.
        now apply (calls_for_same call job).
      + exists j. now rewrite Hkept by exact Hne.
    - intros task Hin. rewrite Hsent. now apply Hrev. }
  destruct (step_effect e w)
    as [Hsame Hsent Hrev
       |job call Hnone Hfresh Hcall Hloc Hsent Hrev Hnew Hkept
       |target job _ stored Hopen Hsent Hrev Hnew Hkept
       |target job call _ stored Hretry Hcall Hsent Hrev Hnew Hkept].
  - (* nothing written *)
    split; [|split].
    + intros job_id j Hfind.
      rewrite (find_job_same_jobs _ _ _ Hsame) in Hfind. rewrite Hsent.
      now apply (Hjobs job_id).
    + intros task call Hnth. rewrite Hsent in Hnth.
      destruct (Htasks _ _ Hnth) as (j & Hfind & Hcall).
      exists j. now rewrite (find_job_same_jobs _ _ _ Hsame).
    + intros task Hin. rewrite Hrev in Hin. rewrite Hsent. now apply Hrevoked.
  - (* a job started *)
    assert (Hcall' : calls_for call
                       (CrawlJob.set_celery_task_id
                          (Some (List.length (sent_tasks w))) job))
      by (apply (calls_for_same call job); [repeat split|exact Hcall]).
    split; [|split].
    + intros job_id j Hfind.
      destruct (Z.eq_dec job_id (CrawlJob.id job)) as [->|Hne].
      * rewrite Hnew in Hfind. injection Hfind as <-.
        split.
        -- destruct Hcall as [_ Hshape].
           destruct call as [id location industry|id ids].
           ++ left. destruct Hshape as (Hkind & Hl & _).
              split; [exact Hkind|]. cbn. rewrite Hl.
              destruct location; [discriminate|].
              now destruct (Hloc id industry).
           ++ now right.
        -- exists (List.length (sent_tasks w)), call.
           split; [reflexivity|]. split; [|exact Hcall'].
           rewrite Hsent. apply nth_error_app_new.
      * rewrite Hkept in Hfind by exact Hne.
        destruct (Hjobs _ _ Hfind) as [Hkind (task & c & Hid & Hnth & Hc)].
        split; [exact Hkind|]. exists task, c. rewrite Hsent.
        split; [exact Hid|]. split; [now apply nth_error_app_old|exact Hc].
    + intros task c Hnth. rewrite Hsent in Hnth.
      apply nth_error_app_inv in Hnth as [Hnth|[_ ->]].
      * destruct (Htasks _ _ Hnth) as (j & Hfind & Hc).
        exists j. split; [|exact Hc]. rewrite Hkept; [exact Hfind|].
        intros Heq. rewrite Heq in Hfind. congruence.
      * exists (CrawlJob.set_celery_task_id
                  (Some (List.length (sent_tasks w))) job).
        split; [|exact Hcall'].
        now rewrite (calls_for_id _ _ Hcall).
    + intros task Hin. rewrite Hrev in Hin. rewrite Hsent, length_app.
      apply Hrevoked in Hin. lia.
  - (* a job cancelled *)
    apply (Hwritten target job (CrawlJob.set_status CANCELLED job));
      try assumption; try reflexivity; [repeat split|].
    intros task Hin. rewrite Hrev in Hin.
    apply in_app_or in Hin as [Hin|Hin]; [now apply Hrevoked|].
    destruct (Hjobs _ _ stored) as [_ (t & c & Hid & Hnth & _)].
    rewrite Hid in Hin. destruct Hin as [<-|[]].
    apply nth_error_Some. congruence.
  - (* a job retried *)
    pose proof (find_job_id _ _ _ stored) as Htarget.
    assert (Hcall' : calls_for call
                       (retried (List.length (sent_tasks w)) job))
      by (apply (calls_for_same call job); [repeat split|exact Hcall]).
    split; [|split].
    + intros job_id j Hfind.
      destruct (Z.eq_dec job_id target) as [->|Hne].
      * rewrite Hnew in Hfind. injection Hfind as <-.
        destruct (Hjobs _ _ stored) as [Hkind _].
        split; [exact Hkind|].
        exists (List.length (sent_tasks w)), call.
        split; [reflexivity|]. split; [|exact Hcall'].
        rewrite Hsent. apply nth_error_app_new.
      * rewrite Hkept in Hfind by exact Hne.
        destruct (Hjobs _ _ Hfind) as [Hkind (task & c & Hid & Hnth & Hc)].
        split; [exact Hkind|]. exists task, c. rewrite Hsent.
        split; [exact Hid|]. split; [now apply nth_error_app_old|exact Hc].
    + intros task c Hnth. rewrite Hsent in Hnth.
      apply nth_error_app_inv in Hnth as [Hnth|[_ ->]].
      * destruct (Htasks _ _ Hnth) as (j & Hfind & Hc).
        destruct (Z.eq_dec (task_job c) target) as [Heq|Hne].
        -- rewrite Heq in *. exists (retried (List.length (sent_tasks w)) job).
           split; [exact Hnew|].
           rewrite stored in Hfind. injection Hfind as <-.
           apply (calls_for_same c job); [repeat split|exact Hc].
        -- exists j. now rewrite Hkept by exact Hne.
      * exists (retried (List.length (sent_tasks w)) job).
        split; [|exact Hcall'].
        rewrite (calls_for_id _ _ Hcall), Htarget. exact Hnew.
    + intros task Hin. rewrite Hrev in Hin. rewrite Hsent, length_app.
      apply Hrevoked in Hin. lia.
Qed.
Lemma no_jobs_sound (w : World) :
  jobs w = [] -> sent_tasks w = [] -> revoked w = [] -> dispatch_sound w.
Proof.
  intros Hjobs Hsent Hrev.
  assert (Hnone : forall job_id, find_job job_id w = None)
    by (intros job_id; unfold find_job; now rewrite Hjobs).
  assert (Hnth : forall task, nth_error (sent_tasks w) task = None)
    by (intros task; rewrite Hsent; now destruct task).
  repeat split; try (intros; congruence).
  intros task Hin. rewrite Hrev in Hin. contradiction.
Qed.
Lemma run_dispatch_sound (events : list Event) (w : World) :
  dispatch_sound w -> dispatch_sound (run_events events w).
Proof. apply run_events_ind. exact step_dispatch_sound. Qed.

(** X21.  Jobs and tasks stay linked through every sequence of requests to
    the jobs API and of task runs: in every store reached, each job carries
    the id of a dispatched task whose first argument is the id of the job,
    whose kind is the kind of the job and which, for a discovery job,
    carries the stored location and industry; each dispatched task has its
    job in the store; and only ids of dispatched tasks are revoked. *)
Theorem jobs_and_tasks_stay_linked (events : list Event) (w : World) :
  dispatch_sound w ->
  let w' := run_events events w in
  (forall job_id j,
     find_job job_id w' = Some j ->
     exists task call,
       CrawlJob.celery_task_id j = Some task /\
       nth_error (sent_tasks w') task = Some call /\
       calls_for call j) /\
  (forall task call,
     nth_error (sent_tasks w') task = Some call ->
     exists j, find_job (task_job call) w' = Some j /\ calls_for call j) /\
  (forall task,
     In task (revoked w') -> (task < List.length (sent_tasks w'))%nat).
Proof.
  intros Hw. cbn zeta.
  destruct (run_dispatch_sound events w Hw) as (Hjobs & Htasks & Hrevoked).
  split; [|split; assumption].
  intros job_id j Hfind. now destruct (Hjobs job_id j Hfind).
Qed.

Lemma jobs_and_tasks_stay_linked_witness :
  dispatch_sound Scenario.catalogue /\
  let w' :=
    run_events
      [StartGoogleMapsCrawl "Utrecht" None;
       StartWebsiteCheck None;
       CancelJob 1;
       Work Scenario.dns_timeouts 0%nat]
      Scenario.catalogue in
  List.length (sent_tasks w') = 2%nat /\
  revoked w' = [0%nat] /\
  forall task, In task (revoked w') -> (task < List.length (sent_tasks w'))%nat.
Proof.
  assert (Hstart : dispatch_sound Scenario.catalogue)
    by now apply no_jobs_sound.
  split; [exact Hstart|]. cbn zeta.
  split; [vm_compute; reflexivity|]. split; [vm_compute; reflexivity|].
  apply (jobs_and_tasks_stay_linked _ Scenario.catalogue Hstart).
Defined.

(** X22.  For jobs started through the API the retry endpoint decides on
    [can_retry] alone, and no dispatched task gets past its first commit.
    In every store reached by requests to the jobs API and task runs, a
    retry request is accepted exactly when the job is stored and its
    [can_retry] holds, which is when it is failed with
    [retry_count < max_retries]; the answer
    "Unsupported job type for retry" is never given; and every task in the
    queue has its job in the store, so that whenever it is run it raises
    [PendingRollbackError] and leaves the store as it was. *)
Theorem retry_depends_on_can_retry_alone (events : list Event) (w : World) :
  dispatch_sound w ->
  let w' := run_events events w in
  (forall job_id,
     accepted (fst (retry_job job_id w')) = true <->
     exists j,
       find_job job_id w' = Some j /\
       CrawlJob.status j = FAILED /\
       CrawlJob.retry_count j < CrawlJob.max_retries j) /\
  (forall job_id,
     fst (retry_job job_id w')
     <> HTTPException 400 "Unsupported job type for retry") /\
  (forall env task call,
     nth_error (sent_tasks w') task = Some call ->
     run_task env call w' = (TaskRaised PendingRollbackError, w')).
Proof.
  intros Hw. cbn zeta.
  destruct (run_dispatch_sound events w Hw) as (Hjobs & Htasks & _).
  set (w' := run_events events w) in *.
  assert (Hretry :
    forall job_id,
      match find_job job_id w' with
      | None => retry_job job_id w' = (HTTPException 404 "Job not found", w')
      | Some j =>
          if CrawlJob.can_retry j
          then accepted (fst (retry_job job_id w')) = true
          else retry_job job_id w'
               = (HTTPException 400 "Job cannot be retried", w')
      end).
  { intros job_id. destruct (find_job job_id w') as [j|] eqn:stored;
      [|unfold retry_job; now rewrite stored].
    destruct (retry_job_cases job_id w' j stored)
      as [[-> Hr]|[(Hyes & Hn1 & Hn2 & _)|(-> & _ & call & _ & ->)]];
      [exact Hr| |reflexivity].
    destruct (Hjobs _ _ stored) as [[[Hkind _]|Hkind] _]; contradiction. }
  split; [|split].
  - intros job_id. specialize (Hretry job_id).
    destruct (find_job job_id w') as [j|] eqn:stored.
    + destruct (CrawlJob.can_retry j) eqn:Hcan.
      * split; [intros _|intros _; exact Hretry].
        exists j. split; [reflexivity|]. now apply can_retry_spec.
      * rewrite Hretry. cbn. split; [discriminate|].
        intros (j' & Heq & Hcan'). injection Heq as <-.
        apply can_retry_spec in Hcan'. congruence.
    + rewrite Hretry. cbn. split; [discriminate|].
      intros (j' & Heq & _). discriminate.
  - intros job_id. specialize (Hretry job_id).
    destruct (find_job job_id w') as [j|];
      [destruct (CrawlJob.can_retry j)|].
    + destruct (fst (retry_job job_id w')); discriminate.
    + rewrite Hretry. discriminate.
    + rewrite Hretry. discriminate.
  - intros env task call Hnth.
    destruct (Htasks _ _ Hnth) as (j & stored & _).
    now apply run_task_stored with (job := j).
Qed.
Lemma retry_depends_on_can_retry_alone_witness :
  dispatch_sound Scenario.catalogue /\
  let w' :=
    run_events
      [StartGoogleMapsCrawl "Utrecht" None; Work Scenario.dns_timeouts 0%nat]
      Scenario.catalogue in
  nth_error (sent_tasks w') 0 = Some (CrawlGoogleMaps 1 (Some "Utrecht") None) /\
  run_task Scenario.dns_timeouts (CrawlGoogleMaps 1 (Some "Utrecht") None) w'
  = (TaskRaised PendingRollbackError, w') /\
  status_of 1 w' = Some PENDING.
Proof.
  assert (Hstart : dispatch_sound Scenario.catalogue)
    by now apply no_jobs_sound.
  split; [exact Hstart|]. cbn zeta.
  split; [vm_compute; reflexivity|]. split; [|vm_compute; reflexivity].
  apply (retry_depends_on_can_retry_alone
           [StartGoogleMapsCrawl "Utrecht" None;
            Work Scenario.dns_timeouts 0%nat]
           Scenario.catalogue Hstart)
    with (task := 0%nat).
  vm_compute. reflexivity.
Defined.
Lemma same_job_trans (j1 j2 j3 : CrawlJob.t) :
  same_job j1 j2 -> same_job j2 j3 -> same_job j1 j3.
Proof. unfold same_job. intuition congruence. Qed.

Lemma extends_refl (w : World) : extends w w.
Proof.
  split; [|split].
  - intros job_id j Hfind. exists j. split; [exact Hfind|repeat split].
  - exists []. now rewrite app_nil_r.
  - exists []. now rewrite app_nil_r.
Qed.

Lemma extends_trans (w1 w2 w3 : World) :
  extends w1 w2 -> extends w2 w3 -> extends w1 w3.
Proof.
  intros (Hjobs & [s Hs] & [r Hr]) (Hjobs' & [s' Hs'] & [r' Hr']).
  split; [|split].
  - intros job_id j Hfind.
    destruct (Hjobs _ _ Hfind) as (j2 & Hfind2 & Hsame).
    destruct (Hjobs' _ _ Hfind2) as (j3 & Hfind3 & Hsame').
    exists j3. split; [exact Hfind3|]. now apply (same_job_trans j j2).
  - exists (s ++ s')%list. now rewrite Hs', Hs, app_assoc.
  - exists (r ++ r')%list. now rewrite Hr', Hr, app_assoc.
Qed.

Lemma step_extends (e : Event) (w : World) : extends w (step e w).
Proof.
  assert (Hwritten :
    forall target job job',
      find_job target w = Some job -> same_job job job' ->
      find_job target (step e w) = Some job' ->
      others_kept target w (step e w) ->
      forall job_id j,
        find_job job_id w = Some j ->
        exists j', find_job job_id (step e w) = Some j' /\ same_job j j').
  { intros target job job' stored Hsame Hnew Hkept job_id j Hfind.
    destruct (Z.eq_dec job_id target) as [->|Hne].
    - exists job'. split; [exact Hnew|]. congruence.
    - exists j. rewrite Hkept by exact Hne. split; [exact Hfind|].
      apply same_job_refl. }
  destruct (step_effect e w)
    as [Hjobs Hsent Hrev
       |job call Hnone _ _ _ Hsent Hrev Hnew Hkept
       |target job _ stored _ Hsent Hrev Hnew Hkept
       |target job call _ stored _ _ Hsent Hrev Hnew Hkept];
    (split; [|split;
              [rewrite Hsent; first [now eexists|exists []; now rewrite app_nil_r]
              |rewrite Hrev; first [now eexists|exists []; now rewrite app_nil_r]]]).
  - intros job_id j Hfind. exists j.
    rewrite (find_job_same_jobs _ _ _ Hjobs). split; [exact Hfind|].
    apply same_job_refl.
  - intros job_id j Hfind. exists j. split; [|apply same_job_refl].
    rewrite Hkept; [exact Hfind|]. intros ->. congruence.
  - eapply Hwritten; [exact stored| |exact Hnew|exact Hkept]. repeat split.
  - eapply Hwritten; [exact stored| |exact Hnew|exact Hkept]. repeat split.
Qed.
(** X26.  Nothing a request to the jobs API or a task does removes a job or
    rewrites what it was created with.  After every sequence of such
    events each job of the store is still found under its id, with its
    name, kind, parameters, target location, target industry and
    [max_retries] unchanged; and the queue of dispatched tasks and the list
    of revocations have only grown at their ends, so that the task ids
    handed out stay valid.  In particular the parameters of a website check
    keep the ids it was started with, also after a retry that checks all
    unchecked businesses instead. *)
Theorem jobs_keep_what_they_were_created_with (events : list Event)
    (w : World) :
  let w' := run_events events w in
  (forall job_id j,
     find_job job_id w = Some j ->
     exists j',
       find_job job_id w' = Some j' /\
       CrawlJob.id j' = CrawlJob.id j /\
       CrawlJob.name j' = CrawlJob.name j /\
       CrawlJob.job_type j' = CrawlJob.job_type j /\
       CrawlJob.parameters j' = CrawlJob.parameters j /\
       CrawlJob.target_location j' = CrawlJob.target_location j /\
       CrawlJob.target_industry j' = CrawlJob.target_industry j /\
       CrawlJob.max_retries j' = CrawlJob.max_retries j) /\
  (exists sent, sent_tasks w' = (sent_tasks w ++ sent)%list) /\
  (exists ids, revoked w' = (revoked w ++ ids)%list).
Proof.
  cbn zeta. revert w.
  induction events as [|e events IH]; intros w; [apply extends_refl|].
  cbn [run_events fold_left].
  exact (extends_trans _ _ _ (step_extends e w) (IH (step e w))).
Qed.
